(** * OAuth credential provisioning: a shallow embedding

    The development follows [src/app/actions/anthropic-oauth.ts] (the
    authorization-code flow with PKCE) and the Gemini login actions.  The
    server actions are functions in a state-and-exception monad over the
    two stores, the module-level configuration cache, the entropy cursor
    and the trace of outbound requests; [Date.now()] is an argument.
    [crypto] (base64url, SHA-256) and [URLSearchParams] are embedded
    concretely.  The other built-ins the actions call ([JSON], [new URL],
    the engine's error texts) are the fields of an interface, [Platform],
    so that every statement holds for any implementation of them; a
    reference implementation, [Node.platform], runs the examples.
    Strings are sequences of (UTF-8) bytes and numbers are integers. *)

From Stdlib Require Import ZArith Ascii String List Lia.
From Stdlib.Strings Require Import Byte.
From Stdlib Require DecimalString.
From stdpp Require Import base option gmap strings list.

Local Open Scope Z_scope.

(** ** Buffers *)

Module Buffer.

Definition to_Z (b : byte) : Z := Z.of_N (Byte.to_N b).

Definition of_Z (z : Z) : byte :=
  match Byte.of_N (Z.to_N (z mod 256)) with
  | Some b => b
  | None => x00
  end.

(** [Buffer.from(str)]: the (UTF-8) bytes of a string. *)
Definition from_string (s : string) : list byte := String.list_byte_of_string s.

(** Big-endian bytes of the low [8 * n] bits of [z]. *)
Fixpoint be_bytes (n : nat) (z : Z) : list byte :=
  match n with
  | O => []
  | S n' => of_Z (z / 2 ^ (8 * Z.of_nat n')) :: be_bytes n' z
  end.

Definition be_word (bs : list byte) : Z :=
  fold_left (fun acc b => acc * 256 + to_Z b) bs 0.

End Buffer.

(** ** [toString('base64url')] *)

Module Base64url.

Definition alphabet : list ascii :=
  String.list_ascii_of_string
    "ABCDEFGHIJKLMNOPQRSTUVWXYZabcdefghijklmnopqrstuvwxyz0123456789-_".

Definition digit (n : Z) : ascii := nth (Z.to_nat (n mod 64)) alphabet "A"%char.

(** Three input bytes give four digits; a tail of one byte gives two
    digits and a tail of two bytes three; no [=] is appended. *)
Fixpoint encode (bs : list byte) : string :=
  match bs with
  | [] => EmptyString
  | [a] =>
      let n := Buffer.to_Z a * 16 in
      String (digit (n / 64)) (String (digit n) EmptyString)
  | [a; b] =>
      let n := (Buffer.to_Z a * 256 + Buffer.to_Z b) * 4 in
      String (digit (n / 4096)) (String (digit (n / 64)) (String (digit n) EmptyString))
  | a :: b :: c :: rest =>
      let n := (Buffer.to_Z a * 256 + Buffer.to_Z b) * 256 + Buffer.to_Z c in
      String (digit (n / 262144))
        (String (digit (n / 4096))
           (String (digit (n / 64)) (String (digit n) (encode rest))))
  end.

(** Length of the unpadded encoding of [n] bytes. *)
Definition encoded_length (n : nat) : nat :=
  (4 * (n / 3) + match n mod 3 with O => 0 | S k => S (S k) end)%nat.

End Base64url.

(** ** [crypto.createHash('sha256')] (FIPS 180-4) *)

Module SHA256.

Definition wrap (x : Z) : Z := x mod 2 ^ 32.
Definition add32 (x y : Z) : Z := wrap (x + y).
Definition rotr (n x : Z) : Z := Z.lor (Z.shiftr x n) (wrap (Z.shiftl x (32 - n))).
Definition not32 (x : Z) : Z := Z.lxor x (2 ^ 32 - 1).

Definition Ch (x y z : Z) : Z := Z.lxor (Z.land x y) (Z.land (not32 x) z).
Definition Maj (x y z : Z) : Z :=
  Z.lxor (Z.lxor (Z.land x y) (Z.land x z)) (Z.land y z).
Definition bsig0 (x : Z) : Z := Z.lxor (Z.lxor (rotr 2 x) (rotr 13 x)) (rotr 22 x).
Definition bsig1 (x : Z) : Z := Z.lxor (Z.lxor (rotr 6 x) (rotr 11 x)) (rotr 25 x).
Definition ssig0 (x : Z) : Z := Z.lxor (Z.lxor (rotr 7 x) (rotr 18 x)) (Z.shiftr x 3).
Definition ssig1 (x : Z) : Z := Z.lxor (Z.lxor (rotr 17 x) (rotr 19 x)) (Z.shiftr x 10).

(** The round constants are the first 32 fractional bits of the cube
    roots of the first 64 primes, the initial state those of the square
    roots of the first 8. *)
Definition is_prime (n : nat) : bool :=
  forallb (fun d => negb (n mod d =? 0)%nat) (seq 2 (n - 2)).

Definition primes : list Z := map Z.of_nat (List.filter is_prime (seq 2 310)).

Fixpoint cube_root_bits (bits : nat) (n r : Z) : Z :=
  match bits with
  | O => r
  | S b =>
      let r' := r + 2 ^ Z.of_nat b in
      cube_root_bits b n (if r' * r' * r' <=? n then r' else r)
  end.

Definition K : list Z := map (fun p => wrap (cube_root_bits 40 (p * 2 ^ 96) 0)) primes.
Definition H0 : list Z := map (fun p => wrap (Z.sqrt (p * 2 ^ 64))) (firstn 8 primes).

Definition padding (len : nat) : list byte :=
  x80 :: repeat x00 (Z.to_nat ((55 - Z.of_nat len) mod 64))
    ++ Buffer.be_bytes 8 (8 * Z.of_nat len).

Fixpoint chunks {A} (fuel k : nat) (l : list A) : list (list A) :=
  match fuel, l with
  | O, _ | _, [] => []
  | S fuel', _ => firstn k l :: chunks fuel' k (skipn k l)
  end.

(** Words 16..63 of the message schedule; [win] holds the sixteen
    preceding words. *)
Fixpoint expand (n : nat) (win : list Z) : list Z :=
  match n with
  | O => []
  | S n' =>
      let w := add32 (add32 (add32 (ssig1 (nth 14 win 0)) (nth 9 win 0))
                        (ssig0 (nth 1 win 0))) (nth 0 win 0) in
      w :: expand n' (tl win ++ [w])
  end.

Record regs := Regs { ra : Z; rb : Z; rc : Z; rd : Z; re : Z; rf : Z; rg : Z; rh : Z }.

Definition round (s : regs) (kw : Z * Z) : regs :=
  let t1 := add32 (add32 (add32 (add32 (rh s) (bsig1 (re s))) (Ch (re s) (rf s) (rg s)))
                     (fst kw)) (snd kw) in
  let t2 := add32 (bsig0 (ra s)) (Maj (ra s) (rb s) (rc s)) in
  Regs (add32 t1 t2) (ra s) (rb s) (rc s) (add32 (rd s) t1) (re s) (rf s) (rg s).

Definition compress (h : regs) (block : list byte) : regs :=
  let m := map Buffer.be_word (chunks 16 4 block) in
  let s := fold_left round (combine K (m ++ expand 48 m)) h in
  Regs (add32 (ra h) (ra s)) (add32 (rb h) (rb s)) (add32 (rc h) (rc s))
       (add32 (rd h) (rd s)) (add32 (re h) (re s)) (add32 (rf h) (rf s))
       (add32 (rg h) (rg s)) (add32 (rh h) (rh s)).

Definition init : regs :=
  Regs (nth 0 H0 0) (nth 1 H0 0) (nth 2 H0 0) (nth 3 H0 0)
       (nth 4 H0 0) (nth 5 H0 0) (nth 6 H0 0) (nth 7 H0 0).

Definition digest (msg : list byte) : list byte :=
  let padded := msg ++ padding (length msg) in
  let h := fold_left compress (chunks (length padded) 64 padded) init in
  concat (map (Buffer.be_bytes 4)
            [ra h; rb h; rc h; rd h; re h; rf h; rg h; rh h]).

End SHA256.

(** [digest('hex')] *)
Definition hex_digit (n : Z) : ascii :=
  nth (Z.to_nat (n mod 16)) (String.list_ascii_of_string "0123456789abcdef") "0"%char.

Definition hex (bs : list byte) : string :=
  String.string_of_list_ascii
    (flat_map (fun b => [hex_digit (Buffer.to_Z b / 16); hex_digit (Buffer.to_Z b)]) bs).

(** ** JavaScript values *)

(** Values that flow through the actions: what [JSON.parse] returns, plus
    [undefined].  Numbers are the integers (exactly representable below
    2^53, as every [Date.now()] is); [NaN] only arises from [ToNumber]. *)
#[warnings="-register-all"] Inductive value :=
| VUndefined
| VNull
| VBool (b : bool)
| VNum (n : Z)
| VStr (s : string)
| VArr (items : list value)
| VObj (props : list (string * value)).

Inductive number := NaN | Num (z : Z).

(** A thrown [Error]; the actions only ever read its [message]. *)
Record exn := Exn { message : string }.

Definition truthy (v : value) : bool :=
  match v with
  | VUndefined | VNull => false
  | VBool b => b
  | VNum n => negb (n =? 0)
  | VStr s => negb (String.eqb s "")
  | VArr _ | VObj _ => true
  end.

Definition decimal (n : Z) : string := DecimalString.NilZero.string_of_int (Z.to_int n).

(** [String(v)], as a template literal applies it (objects read from JSON
    are taken without own [toString] or [valueOf] properties).  A number
    is printed as JavaScript prints an integer below 2^53: in plain
    decimal digits. *)
Fixpoint ToString (v : value) : string :=
  match v with
  | VUndefined => "undefined"
  | VNull => "null"
  | VBool true => "true"
  | VBool false => "false"
  | VNum n => decimal n
  | VStr s => s
  | VArr items =>
      let element x := match x with VUndefined | VNull => "" | _ => ToString x end in
      (fix join (l : list value) : string :=
         match l with
         | [] => ""
         | [x] => element x
         | x :: rest => element x +:+ "," +:+ join rest
         end) items
  | VObj _ => "[object Object]"
  end.

(** Own-property lookup on the property list of an object. *)
Fixpoint lookup_prop (k : string) (props : list (string * value)) : value :=
  match props with
  | [] => VUndefined
  | (k', v) :: rest => if String.eqb k' k then v else lookup_prop k rest
  end.

(** [l[i]] in an array destructuring. *)
Definition element (i : nat) (l : list value) : value := nth i l VUndefined.

Definition strict_eq_string (v : value) (s : string) : bool :=
  match v with
  | VStr s' => String.eqb s' s
  | _ => false
  end.

Definition number_sub (a b : number) : number :=
  match a, b with
  | Num x, Num y => Num (x - y)
  | _, _ => NaN
  end.

Definition number_gt (a b : number) : bool :=
  match a, b with
  | Num x, Num y => y <? x
  | _, _ => false
  end.

(** ** Strings *)

Fixpoint includes (sep : ascii) (s : string) : bool :=
  match s with
  | EmptyString => false
  | String c rest => Ascii.eqb c sep || includes sep rest
  end.

(** [s.split(sep)] for a one-character separator. *)
Fixpoint split (sep : ascii) (s : string) : list string :=
  match s with
  | EmptyString => [EmptyString]
  | String c rest =>
      if Ascii.eqb c sep then EmptyString :: split sep rest
      else match split sep rest with
           | [] => [String c EmptyString]
           | h :: t => String c h :: t
           end
  end.

(** [l.join(sep)]. *)
Fixpoint join (sep : string) (l : list string) : string :=
  match l with
  | [] => ""
  | [x] => x
  | x :: rest => x +:+ sep +:+ join sep rest
  end.

(** [s] has [sub] as a substring. *)
Definition contains (s sub : string) : Prop :=
  exists pre post, s = pre +:+ sub +:+ post.

(** ** [URL] and [URLSearchParams] *)

(** A parsed URL: [url_base] is the serialization up to and excluding the
    query, [searchParams] the list behind [url.searchParams]. *)
Record URL := MkURL {
  url_base : string;
  searchParams : list (string * string);
  url_fragment : option string
}.

(** [params.set(name, value)]: the first pair called [name] takes the
    value and the later ones are removed; without one the pair is
    appended. *)
Fixpoint params_set (name val : string) (l : list (string * string))
  : list (string * string) :=
  match l with
  | [] => [(name, val)]
  | (k, x) :: rest =>
      if String.eqb k name
      then (name, val) :: List.filter (fun p => negb (String.eqb (fst p) name)) rest
      else (k, x) :: params_set name val rest
  end.

Definition searchParams_set (name val : string) (u : URL) : URL :=
  MkURL (url_base u) (params_set name val (searchParams u)) (url_fragment u).

(** The application/x-www-form-urlencoded byte serializer. *)
Definition urlencoded_keep (n : Z) : bool :=
  (n =? 42) || (n =? 45) || (n =? 46) || (n =? 95)
  || ((48 <=? n) && (n <=? 57)) || ((65 <=? n) && (n <=? 90))
  || ((97 <=? n) && (n <=? 122)).

Definition upper_hex_digit (n : Z) : ascii :=
  nth (Z.to_nat (n mod 16)) (String.list_ascii_of_string "0123456789ABCDEF") "0"%char.

Fixpoint urlencode (s : string) : string :=
  match s with
  | EmptyString => EmptyString
  | String c rest =>
      let n := Z.of_N (N_of_ascii c) in
      if n =? 32 then String "+" (urlencode rest)
      else if urlencoded_keep n then String c (urlencode rest)
      else String "%" (String (upper_hex_digit (n / 16))
                         (String (upper_hex_digit n) (urlencode rest)))
  end.

Definition urlencoded_serialize (l : list (string * string)) : string :=
  join "&" (map (fun p => urlencode (fst p) +:+ "=" +:+ urlencode (snd p)) l).

(** [url.toString()] once the search parameters have been updated. *)
Definition URL_toString (u : URL) : string :=
  url_base u
  +:+ match searchParams u with
      | [] => ""
      | l => "?" +:+ urlencoded_serialize l
      end
  +:+ match url_fragment u with
      | None => ""
      | Some f => "#" +:+ f
      end.

(** ** The platform *)

(** Built-ins whose behaviour the actions rely on but do not define.
    [JSON_parse] and [URL_parse] return the thrown error on the left. *)
Class Platform := {
  JSON_parse : string -> exn + value;
  JSON_stringify : value -> string;
  StringToNumber : string -> number;
  TypeError_message : value -> string -> string;
  URL_parse : string -> exn + URL
}.

(** ** Configuration, stores and the outside world *)

(** Modelled from the spec: the provider configuration record declared in
    [@/lib/oauth-config-loader] (section 3, ProviderConfig), with the
    fields the actions read. *)
Record OAuthConfig := {
  clientId : string;
  authorizeUrl : string;
  tokenUrl : string;
  apiKeyUrl : string;
  redirectUri : string;
  scopes : list string
}.

Record Configs := { anthropic : OAuthConfig }.

Record Request := {
  req_url : string;
  req_method : string;
  req_headers : list (string * string);
  req_body : string
}.

Record Response := { ok : bool; body : string }.

(** Modelled from the spec: a row of the credential store of
    [@/services/db/crud] (section 6, Credential Store contract), with the
    columns the actions write. *)
Record Connection := {
  provider : string;
  apikey : value;
  google_Oauth : value
}.

(** A pending completion signal of the polling login. *)
Definition Promise := nat.

Inductive GeminiCall := IsAuthenticated | AuthWithWeb | ClearCachedCredentials.

(** Modelled from the spec: what the collaborators outside [src/] answer
    when called: the configuration loader of [@/lib/oauth-config-loader]
    (section 6), the methods of [GeminiOAuthService] of
    [@/lib/gemini-oauth] (section 4.3), each of which may throw; together
    with [fetch] and the entropy source behind [crypto.randomBytes]. *)
Record Env := {
  getOAuthConfig : exn + Configs;
  fetch : Request -> exn + Response;
  entropy : nat -> byte;
  gemini_isAuthenticated : exn + bool;
  gemini_authWithWeb : exn + (string * Promise);
  gemini_clearCachedCredentials : exn + unit
}.

Record State := {
  oauthConfig : option OAuthConfig;
  keyValue : gmap string string;
  connection : gmap string Connection;
  requests : list Request;
  drawn : nat;
  authPromises : gmap string Promise;
  timers : list (Z * string);
  gemini_calls : list GeminiCall
}.

Definition set_oauthConfig (c : option OAuthConfig) (st : State) : State :=
  {| oauthConfig := c; keyValue := keyValue st; connection := connection st;
     requests := requests st; drawn := drawn st; authPromises := authPromises st;
     timers := timers st; gemini_calls := gemini_calls st |}.

Definition set_keyValue (m : gmap string string) (st : State) : State :=
  {| oauthConfig := oauthConfig st; keyValue := m; connection := connection st;
     requests := requests st; drawn := drawn st; authPromises := authPromises st;
     timers := timers st; gemini_calls := gemini_calls st |}.

Definition set_connection (m : gmap string Connection) (st : State) : State :=
  {| oauthConfig := oauthConfig st; keyValue := keyValue st; connection := m;
     requests := requests st; drawn := drawn st; authPromises := authPromises st;
     timers := timers st; gemini_calls := gemini_calls st |}.

Definition set_requests (l : list Request) (st : State) : State :=
  {| oauthConfig := oauthConfig st; keyValue := keyValue st; connection := connection st;
     requests := l; drawn := drawn st; authPromises := authPromises st;
     timers := timers st; gemini_calls := gemini_calls st |}.

Definition set_drawn (n : nat) (st : State) : State :=
  {| oauthConfig := oauthConfig st; keyValue := keyValue st; connection := connection st;
     requests := requests st; drawn := n; authPromises := authPromises st;
     timers := timers st; gemini_calls := gemini_calls st |}.

Definition set_authPromises (m : gmap string Promise) (st : State) : State :=
  {| oauthConfig := oauthConfig st; keyValue := keyValue st; connection := connection st;
     requests := requests st; drawn := drawn st; authPromises := m;
     timers := timers st; gemini_calls := gemini_calls st |}.

Definition set_timers (l : list (Z * string)) (st : State) : State :=
  {| oauthConfig := oauthConfig st; keyValue := keyValue st; connection := connection st;
     requests := requests st; drawn := drawn st; authPromises := authPromises st;
     timers := l; gemini_calls := gemini_calls st |}.

Definition set_gemini_calls (l : list GeminiCall) (st : State) : State :=
  {| oauthConfig := oauthConfig st; keyValue := keyValue st; connection := connection st;
     requests := requests st; drawn := drawn st; authPromises := authPromises st;
     timers := timers st; gemini_calls := l |}.

(** Modelled from the spec: the session store [keyValue] of
    [@/services/db/crud] (section 6: upsert, get and delete on one key). *)
Definition upsert_keyValue (key val : string) (st : State) : State :=
  set_keyValue (<[key := val]> (keyValue st)) st.
Definition delete_keyValue (key : string) (st : State) : State :=
  set_keyValue (delete key (keyValue st)) st.

(** Modelled from the spec: the credential store [connection] of
    [@/services/db/crud] (section 6: upsert, getByProvider and delete; at
    most one row per provider). *)
Definition upsert_connection (row : Connection) (st : State) : State :=
  set_connection (<[provider row := row]> (connection st)) st.
Definition delete_connection (p : string) (st : State) : State :=
  set_connection (delete p (connection st)) st.

(** ** The monad of the actions *)

Definition M (A : Type) : Type := State -> (exn + A) * State.

Definition ret {A} (a : A) : M A := fun st => (inr a, st).
Definition throw {A} (e : exn) : M A := fun st => (inl e, st).
Definition bind {A B} (m : M A) (k : A -> M B) : M B :=
  fun st =>
    match m st with
    | (inl e, st') => (inl e, st')
    | (inr a, st') => k a st'
    end.
Definition lift {A} (r : exn + A) : M A := fun st => (r, st).
Definition modify (f : State -> State) : M unit := fun st => (inr tt, f st).
Definition gets {A} (f : State -> A) : M A := fun st => (inr (f st), st).

(** [try { body } catch (error) { handler }] around a body that returns
    from the action. *)
Definition try_catch {A} (body : M A) (handler : exn -> State -> A * State)
  : State -> A * State :=
  fun st =>
    match body st with
    | (inl e, st') => handler e st'
    | (inr a, st') => (a, st')
    end.

(** A computation that cannot throw, run inside one that can. *)
Definition total {A} (f : State -> A * State) : M A :=
  fun st => (inr (f st).1, (f st).2).

Declare Scope action_scope.
Delimit Scope action_scope with action.
Notation "x <- m ;; k" := (bind m (fun x => k))
  (at level 100, m at next level, right associativity) : action_scope.
Notation "m ;;; k" := (bind m (fun _ => k))
  (at level 100, right associativity) : action_scope.

(** ** The actions of [anthropic-oauth.ts] *)

Record PKCE := { verifier : string; challenge : string }.

Inductive StartResult :=
| StartSuccess (authUrl verifier state : string)
| StartFailure (error : string).

Inductive CompleteResult :=
| CompleteSuccess (apiKey keyName : value)
| CompleteFailure (error : string).

Inductive StatusResult :=
| NotAuthenticated
| Authenticated (isOAuthGenerated : bool) (keyName keyHint : value).

Inductive LogoutResult :=
| LogoutSuccess
| LogoutFailure (error : string).

Definition authenticated (r : StatusResult) : bool :=
  match r with
  | NotAuthenticated => false
  | Authenticated _ _ _ => true
  end.

Definition oauth_data_key : string := "anthropic-oauth-data".

Section Actions.
Context `{Platform} (env : Env).
Local Open Scope action_scope.

(** [v.k]; a [TypeError] when [v] is [undefined] or [null].  The
    property names the actions read are defined on no primitive and on
    no array, so those yield [undefined]. *)
Definition Get (v : value) (k : string) : M value :=
  match v with
  | VUndefined | VNull => throw (Exn (TypeError_message v k))
  | VObj props => ret (lookup_prop k props)
  | _ => ret VUndefined
  end.

(** [v?.k] *)
Definition Get_optional (v : value) (k : string) : value :=
  match v with
  | VObj props => lookup_prop k props
  | _ => VUndefined
  end.

Definition ToNumber (v : value) : number :=
  match v with
  | VUndefined => NaN
  | VNull => Num 0
  | VBool b => Num (if b then 1 else 0)
  | VNum n => Num n
  | VStr s => StringToNumber s
  | VArr _ | VObj _ => StringToNumber (ToString v)
  end.

(** [crypto.randomBytes(n)]: the next [n] bytes of the entropy source. *)
Definition randomBytes (n : nat) : M (list byte) :=
  fun st => (inr (map (entropy env) (seq (drawn st) n)), set_drawn (drawn st + n) st).

(** The two stores of [@/services/db/crud], as actions. *)
Definition keyValue_upsert (key val : string) : M unit := modify (upsert_keyValue key val).
Definition keyValue_get (key : string) : M (option string) :=
  gets (fun st => keyValue st !! key).
Definition keyValue_delete (key : string) : M unit := modify (delete_keyValue key).

Definition connection_upsert (row : Connection) : M unit := modify (upsert_connection row).
Definition connection_getByProvider (p : string) : M (option Connection) :=
  gets (fun st => connection st !! p).
Definition connection_delete (p : string) : M unit := modify (delete_connection p).

(** [await fetch(url, init)]; every call is appended to the trace. *)
Definition do_fetch (req : Request) : M Response :=
  fun st => (fetch env req, set_requests (requests st ++ [req]) st).

(** [await response.json()] *)
Definition Response_json (r : Response) : M value := lift (JSON_parse (body r)).

Definition ensureOAuthConfig : M OAuthConfig :=
  cached <- gets oauthConfig ;;
  match cached with
  | Some config => ret config
  | None =>
      configs <- lift (getOAuthConfig env) ;;
      modify (set_oauthConfig (Some (anthropic configs))) ;;;
      ret (anthropic configs)
  end.

Definition generatePKCE : M PKCE :=
  bytes <- randomBytes 32 ;;
  let verifier := Base64url.encode bytes in
  let challenge := Base64url.encode (SHA256.digest (Buffer.from_string verifier)) in
  ret {| verifier := verifier; challenge := challenge |}.

Definition generateState : M string :=
  bytes <- randomBytes 32 ;;
  ret (Base64url.encode bytes).

Definition oauthData_object (verifier state : string) (timestamp : Z) : value :=
  VObj [("verifier", VStr verifier); ("state", VStr state); ("timestamp", VNum timestamp)].

Definition startAnthropicOAuth (now : Z) : State -> StartResult * State :=
  try_catch
    (config <- ensureOAuthConfig ;;
     pkce <- generatePKCE ;;
     state <- generateState ;;
     authUrl <- lift (URL_parse (authorizeUrl config)) ;;
     let authUrl := searchParams_set "code" "true" authUrl in
     let authUrl := searchParams_set "client_id" (clientId config) authUrl in
     let authUrl := searchParams_set "response_type" "code" authUrl in
     let authUrl := searchParams_set "redirect_uri" (redirectUri config) authUrl in
     let authUrl := searchParams_set "scope" (join " " (scopes config)) authUrl in
     let authUrl := searchParams_set "state" state authUrl in
     let authUrl := searchParams_set "code_challenge" (challenge pkce) authUrl in
     let authUrl := searchParams_set "code_challenge_method" "S256" authUrl in
     let oauthData := oauthData_object (verifier pkce) state now in
     keyValue_upsert oauth_data_key (JSON_stringify oauthData) ;;;
     ret (StartSuccess (URL_toString authUrl) (verifier pkce) state))
    (fun error st => (StartFailure "Failed to start OAuth flow", st)).

Definition tokenPayload (code : value) (config : OAuthConfig) (code_verifier state : value)
  : value :=
  VObj [("grant_type", VStr "authorization_code");
        ("code", code);
        ("redirect_uri", VStr (redirectUri config));
        ("client_id", VStr (clientId config));
        ("code_verifier", code_verifier);
        ("state", state)].

Definition token_request (config : OAuthConfig) (payload : value) : Request :=
  {| req_url := tokenUrl config;
     req_method := "POST";
     req_headers := [("Content-Type", "application/json")];
     req_body := JSON_stringify payload |}.

Definition apiKey_request (config : OAuthConfig) (access_token : value) : Request :=
  {| req_url := apiKeyUrl config;
     req_method := "POST";
     req_headers := [("Content-Type", "application/json");
                     ("Authorization", "Bearer " +:+ ToString access_token)];
     req_body := JSON_stringify (VObj []) |}.

Definition apiKey_metadata (key_id key_name created_at partial_key_hint : value) : value :=
  VObj [("type", VStr "oauth_generated");
        ("key_id", key_id);
        ("key_name", key_name);
        ("created_at", created_at);
        ("partial_key_hint", partial_key_hint)].

(** [error.message || 'Failed to complete OAuth flow'] *)
Definition message_or (e : exn) (default : string) : string :=
  if truthy (VStr (message e)) then message e else default.

(** [authCode.includes('#') ? authCode.split('#') : [authCode, null]] *)
Definition authCode_parts (authCode : string) : list value :=
  if includes "#" authCode then map VStr (split "#" authCode)
  else [VStr authCode; VNull].

Definition completeAnthropicOAuth (authCode : string) (now : Z)
  : State -> CompleteResult * State :=
  if negb (truthy (VStr authCode))
  then fun st => (CompleteFailure "Missing authorization code", st)
  else
    try_catch
      (config <- ensureOAuthConfig ;;
       let parts := authCode_parts authCode in
       let code := element 0 parts in
       let receivedState := element 1 parts in
       storedData <- keyValue_get oauth_data_key ;;
       match storedData with
       | None | Some EmptyString =>
           ret (CompleteFailure
                  "OAuth session not found. Please start the authentication process again.")
       | Some storedData =>
           match JSON_parse storedData with
           | inl e => ret (CompleteFailure "Invalid OAuth session data")
           | inr oauthData =>
               timestamp <- Get oauthData "timestamp" ;;
               if number_gt (number_sub (Num now) (ToNumber timestamp)) (Num 600000)
               then
                 keyValue_delete oauth_data_key ;;;
                 ret (CompleteFailure "OAuth session expired. Please try again.")
               else
                 code_verifier <- Get oauthData "verifier" ;;
                 state <- (if truthy receivedState then ret receivedState
                           else Get oauthData "state") ;;
                 let payload := tokenPayload code config code_verifier state in
                 tokenResponse <- do_fetch (token_request config payload) ;;
                 if negb (ok tokenResponse)
                 then throw (Exn ("Token exchange failed: " +:+ body tokenResponse))
                 else
                   tokenData <- Response_json tokenResponse ;;
                   access_token <- Get tokenData "access_token" ;;
                   apiKeyResponse <- do_fetch (apiKey_request config access_token) ;;
                   if negb (ok apiKeyResponse)
                   then throw (Exn ("API key creation failed: " +:+ body apiKeyResponse))
                   else
                     apiKeyData <- Response_json apiKeyResponse ;;
                     raw_key <- Get apiKeyData "raw_key" ;;
                     key_id <- Get apiKeyData "id" ;;
                     key_name <- Get apiKeyData "name" ;;
                     created_at <- Get apiKeyData "created_at" ;;
                     partial_key_hint <- Get apiKeyData "partial_key_hint" ;;
                     connection_upsert
                       {| provider := "Anthropic";
                          apikey := raw_key;
                          google_Oauth :=
                            VStr (JSON_stringify
                                    (apiKey_metadata key_id key_name created_at
                                       partial_key_hint)) |} ;;;
                     keyValue_delete oauth_data_key ;;;
                     ret (CompleteSuccess raw_key key_name)
           end
       end)
      (fun error st =>
         (CompleteFailure (message_or error "Failed to complete OAuth flow"),
          delete_keyValue oauth_data_key st)).

(** The parsed metadata of a row: [null] unless [google_Oauth] is
    truthy and parses. *)
Definition parsed_metadata (row : Connection) : value :=
  if truthy (google_Oauth row)
  then match JSON_parse (ToString (google_Oauth row)) with
       | inr metadata => metadata
       | inl _ => VNull
       end
  else VNull.

Definition checkAnthropicAuthStatus : State -> StatusResult * State :=
  try_catch
    (providerConnection <- connection_getByProvider "Anthropic" ;;
     match providerConnection with
     | None => ret NotAuthenticated
     | Some row =>
         if negb (truthy (apikey row)) then ret NotAuthenticated
         else
           let metadata := parsed_metadata row in
           ret (Authenticated
                  (strict_eq_string (Get_optional metadata "type") "oauth_generated")
                  (Get_optional metadata "key_name")
                  (Get_optional metadata "partial_key_hint"))
     end)
    (fun error st => (NotAuthenticated, st)).

Definition logoutAnthropicOAuth : State -> LogoutResult * State :=
  try_catch
    (providerConnection <- connection_getByProvider "Anthropic" ;;
     match providerConnection with
     | None => ret LogoutSuccess
     | Some row =>
         (if truthy (google_Oauth row)
          then
            total
              (try_catch
                 (metadata <- lift (JSON_parse (ToString (google_Oauth row))) ;;
                  type <- Get metadata "type" ;;
                  if strict_eq_string type "oauth_generated"
                  then
                    connection_upsert
                      {| provider := "Anthropic";
                         apikey := VStr "";
                         google_Oauth := VStr "" |}
                  else ret tt)
                 (fun e st => (tt, st)))
          else ret tt) ;;;
         ret LogoutSuccess
     end)
    (fun error st => (LogoutFailure "Failed to logout", st)).

End Actions.

(** ** The Gemini login actions *)

Module Gemini.

Record LoginResult := {
  success : bool;
  authUrl : option string;
  message : option string;
  error : option string
}.

Record ClearResult := {
  clear_success : bool;
  clear_message : option string;
  clear_error : option string
}.

Section Actions.
Context (env : Env).
Local Open Scope action_scope.

(** The methods of [GeminiOAuthService] ([@/lib/gemini-oauth]) answer
    as the environment says; each call is recorded. *)
Definition called (c : GeminiCall) (st : State) : State :=
  set_gemini_calls (gemini_calls st ++ [c]) st.

Definition isAuthenticated : M bool :=
  fun st => (gemini_isAuthenticated env, called IsAuthenticated st).
Definition authWithWeb : M (string * Promise) :=
  fun st => (gemini_authWithWeb env, called AuthWithWeb st).
Definition clearCachedCredentials : M unit :=
  fun st => (gemini_clearCachedCredentials env, called ClearCachedCredentials st).

(** [authPromises.set(key, promise)] *)
Definition authPromises_set (key : string) (p : Promise) : M unit :=
  modify (fun st => set_authPromises (<[key := p]> (authPromises st)) st).

(** [setTimeout(() => authPromises.delete(key), delay)]: the deferred
    deletion is queued. *)
Definition setTimeout_delete (key : string) (delay : Z) : M unit :=
  modify (fun st => set_timers (timers st ++ [(delay, key)]) st).

Definition error_message (e : exn) : string := let 'Exn m := e in m.

Definition checkGeminiAuthStatus : State -> bool * State :=
  try_catch
    (isAuthenticated <- isAuthenticated ;;
     ret isAuthenticated)
    (fun error st => (false, st)).

Definition startGeminiOAuthLogin : State -> LoginResult * State :=
  try_catch
    (already <- isAuthenticated ;;
     if (already : bool)
     then ret {| success := true; authUrl := None;
                 message := Some "Already authenticated"; error := None |}
     else
       web <- authWithWeb ;;
       let authUrl := fst web in
       let loginCompletePromise := snd web in
       authPromises_set authUrl loginCompletePromise ;;;
       setTimeout_delete authUrl 300000 ;;;
       ret {| success := true; authUrl := Some authUrl;
              message := Some "Open the URL in your browser to authenticate";
              error := None |})
    (fun e st =>
       ({| success := false; authUrl := None; message := None;
           error := Some (error_message e) |}, st)).

Definition clearGeminiOAuthCredentials : State -> ClearResult * State :=
  try_catch
    (clearCachedCredentials ;;;
     connection_delete "Gemini CLI" ;;;
     ret {| clear_success := true;
            clear_message := Some "Credentials cleared successfully";
            clear_error := None |})
    (fun e st =>
       ({| clear_success := false; clear_message := None;
           clear_error := Some (error_message e) |}, st)).

End Actions.

End Gemini.

(** ** A reference platform

    A direct implementation of the built-ins on the inputs the examples
    below run: JSON texts whose numbers are integers and whose escapes
    stay in the Basic Multilingual Plane, and absolute URLs. *)

Module Node.

Definition chars (s : string) : list ascii := String.list_ascii_of_string s.
Definition text (l : list ascii) : string := String.string_of_list_ascii l.
Definition code (c : ascii) : Z := Z.of_N (N_of_ascii c).
Definition char_of (n : Z) : ascii := ascii_of_N (Z.to_N n).

Definition quote : ascii := "034"%char.
Definition backslash : ascii := "\"%char.

(** *** [JSON.stringify] *)

Definition lower_hex_digit (n : Z) : ascii :=
  nth (Z.to_nat (n mod 16)) (chars "0123456789abcdef") "0"%char.

Definition escape_char (c : ascii) : list ascii :=
  let n := code c in
  if n =? 34 then [backslash; quote]
  else if n =? 92 then [backslash; backslash]
  else if n =? 8 then [backslash; "b"%char]
  else if n =? 12 then [backslash; "f"%char]
  else if n =? 10 then [backslash; "n"%char]
  else if n =? 13 then [backslash; "r"%char]
  else if n =? 9 then [backslash; "t"%char]
  else if n <? 32
       then [backslash; "u"%char; "0"%char; "0"%char;
             lower_hex_digit (n / 16); lower_hex_digit n]
  else [c].

Definition quoted (s : string) : list ascii :=
  quote :: flat_map escape_char (chars s) ++ [quote].

Fixpoint commas (l : list (list ascii)) : list ascii :=
  match l with
  | [] => []
  | [x] => x
  | x :: rest => x ++ ","%char :: commas rest
  end.

Fixpoint stringify (v : value) : list ascii :=
  match v with
  | VUndefined => chars "undefined"
  | VNull => chars "null"
  | VBool true => chars "true"
  | VBool false => chars "false"
  | VNum n => chars (decimal n)
  | VStr s => quoted s
  | VArr items =>
      "["%char ::
        commas ((fix each (l : list value) : list (list ascii) :=
                   match l with
                   | [] => []
                   | VUndefined :: rest => chars "null" :: each rest
                   | x :: rest => stringify x :: each rest
                   end) items)
        ++ ["]"%char]
  | VObj props =>
      "{"%char ::
        commas ((fix each (l : list (string * value)) : list (list ascii) :=
                   match l with
                   | [] => []
                   | (_, VUndefined) :: rest => each rest
                   | (k, x) :: rest => (quoted k ++ ":"%char :: stringify x) :: each rest
                   end) props)
        ++ ["}"%char]
  end.

(** *** [JSON.parse] *)

Definition is_ws (c : ascii) : bool :=
  let n := code c in (n =? 32) || (n =? 9) || (n =? 10) || (n =? 13).

Fixpoint skip_ws (s : list ascii) : list ascii :=
  match s with
  | c :: rest => if is_ws c then skip_ws rest else s
  | [] => []
  end.

Definition digit_value (c : ascii) : option Z :=
  let n := code c in
  if (48 <=? n) && (n <=? 57) then Some (n - 48) else None.

Definition hex_value (c : ascii) : option Z :=
  let n := code c in
  if (48 <=? n) && (n <=? 57) then Some (n - 48)
  else if (97 <=? n) && (n <=? 102) then Some (n - 87)
  else if (65 <=? n) && (n <=? 70) then Some (n - 55)
  else None.

(** The UTF-8 bytes of a code point of the Basic Multilingual Plane. *)
Definition utf8 (cp : Z) : list ascii :=
  if cp <? 128 then [char_of cp]
  else if cp <? 2048 then [char_of (192 + cp / 64); char_of (128 + cp mod 64)]
  else [char_of (224 + cp / 4096); char_of (128 + (cp / 64) mod 64);
        char_of (128 + cp mod 64)].

Definition unescape (c : ascii) : option ascii :=
  let n := code c in
  if (n =? 34) || (n =? 92) || (n =? 47) then Some c
  else if n =? 98 then Some (char_of 8)
  else if n =? 102 then Some (char_of 12)
  else if n =? 110 then Some (char_of 10)
  else if n =? 114 then Some (char_of 13)
  else if n =? 116 then Some (char_of 9)
  else None.

(** The characters of a string literal after its opening quote. *)
Fixpoint parse_string (s : list ascii) : option (list ascii * list ascii) :=
  match s with
  | [] => None
  | c :: rest =>
      if code c =? 34 then Some ([], rest)
      else if code c <? 32 then None
      else if code c =? 92 then
        match rest with
        | e :: rest' =>
            if code e =? 117 then
              match rest' with
              | a :: b :: c' :: d :: rest'' =>
                  match hex_value a, hex_value b, hex_value c', hex_value d with
                  | Some x3, Some x2, Some x1, Some x0 =>
                      let cp := ((x3 * 16 + x2) * 16 + x1) * 16 + x0 in
                      if (55296 <=? cp) && (cp <=? 57343) then None
                      else match parse_string rest'' with
                           | Some (str, r) => Some (utf8 cp ++ str, r)
                           | None => None
                           end
                  | _, _, _, _ => None
                  end
              | _ => None
              end
            else
              match unescape e, parse_string rest' with
              | Some x, Some (str, r) => Some (x :: str, r)
              | _, _ => None
              end
        | [] => None
        end
      else
        match parse_string rest with
        | Some (str, r) => Some (c :: str, r)
        | None => None
        end
  end.

Fixpoint parse_digits (s : list ascii) (acc : Z) : Z * list ascii :=
  match s with
  | c :: rest =>
      match digit_value c with
      | Some d => parse_digits rest (acc * 10 + d)
      | None => (acc, s)
      end
  | [] => (acc, [])
  end.

(** An integer literal; a fraction or an exponent is not read. *)
Definition parse_natural (s : list ascii) : option (Z * list ascii) :=
  match s with
  | c :: rest =>
      match digit_value c with
      | None => None
      | Some d =>
          let '(n, r) := if d =? 0 then (0, rest) else parse_digits rest d in
          match r with
          | c' :: _ =>
              if (code c' =? 46) || (code c' =? 101) || (code c' =? 69)
                 || (48 <=? code c') && (code c' <=? 57)
              then None else Some (n, r)
          | [] => Some (n, r)
          end
      end
  | [] => None
  end.

(** [obj[k] = v] while an object literal is read: a repeated name keeps
    its place and takes the later value. *)
Fixpoint define (k : string) (v : value) (props : list (string * value))
  : list (string * value) :=
  match props with
  | [] => [(k, v)]
  | (k', x) :: rest =>
      if String.eqb k' k then (k, v) :: rest else (k', x) :: define k v rest
  end.

Definition starts_with (p : string) (s : list ascii) : option (list ascii) :=
  let n := String.length p in
  if String.eqb (text (firstn n s)) p then Some (skipn n s) else None.

Fixpoint parse_value (fuel : nat) (s : list ascii) : option (value * list ascii) :=
  match fuel with
  | O => None
  | S fuel' =>
      match skip_ws s with
      | [] => None
      | c :: rest =>
          if code c =? 34 then
            match parse_string rest with
            | Some (str, r) => Some (VStr (text str), r)
            | None => None
            end
          else if code c =? 91 then
            match skip_ws rest with
            | c' :: r => if code c' =? 93 then Some (VArr [], r)
                         else parse_elements fuel' rest []
            | [] => None
            end
          else if code c =? 123 then
            match skip_ws rest with
            | c' :: r => if code c' =? 125 then Some (VObj [], r)
                         else parse_members fuel' rest []
            | [] => None
            end
          else if code c =? 45 then
            match parse_natural rest with
            | Some (n, r) => Some (VNum (- n), r)
            | None => None
            end
          else
            match starts_with "null" (c :: rest), starts_with "true" (c :: rest),
                  starts_with "false" (c :: rest) with
            | Some r, _, _ => Some (VNull, r)
            | _, Some r, _ => Some (VBool true, r)
            | _, _, Some r => Some (VBool false, r)
            | _, _, _ =>
                match parse_natural (c :: rest) with
                | Some (n, r) => Some (VNum n, r)
                | None => None
                end
            end
      end
  end
with parse_elements (fuel : nat) (s : list ascii) (acc : list value)
  : option (value * list ascii) :=
  match fuel with
  | O => None
  | S fuel' =>
      match parse_value fuel' s with
      | Some (v, r) =>
          match skip_ws r with
          | c :: r' =>
              if code c =? 44 then parse_elements fuel' r' (acc ++ [v])
              else if code c =? 93 then Some (VArr (acc ++ [v]), r')
              else None
          | [] => None
          end
      | None => None
      end
  end
with parse_members (fuel : nat) (s : list ascii) (acc : list (string * value))
  : option (value * list ascii) :=
  match fuel with
  | O => None
  | S fuel' =>
      match skip_ws s with
      | q :: s' =>
          if code q =? 34 then
            match parse_string s' with
            | Some (k, r) =>
                match skip_ws r with
                | colon :: r' =>
                    if code colon =? 58 then
                      match parse_value fuel' r' with
                      | Some (v, r'') =>
                          match skip_ws r'' with
                          | c :: r3 =>
                              if code c =? 44
                              then parse_members fuel' r3 (define (text k) v acc)
                              else if code c =? 125
                                   then Some (VObj (define (text k) v acc), r3)
                                   else None
                          | [] => None
                          end
                      | None => None
                      end
                    else None
                | [] => None
                end
            | None => None
            end
          else None
      | [] => None
      end
  end.

Definition parse (s : string) : exn + value :=
  match parse_value (2 * String.length s + 2) (chars s) with
  | Some (v, r) =>
      match skip_ws r with
      | [] => inr v
      | _ => inl (Exn "Unexpected non-whitespace character after JSON")
      end
  | None => inl (Exn "Unexpected token in JSON")
  end.

(** *** [Number(string)] on decimal integers *)

Definition is_digit (c : ascii) : bool :=
  match digit_value c with Some _ => true | None => false end.

Definition all_digits (s : list ascii) : bool := forallb is_digit s.

Definition string_to_number (s : string) : number :=
  match chars s with
  | [] => Num 0
  | c :: rest =>
      if (code c =? 45) && all_digits rest && negb (Nat.eqb (length rest) 0)
      then Num (- fst (parse_digits rest 0))
      else if all_digits (c :: rest) then Num (fst (parse_digits (c :: rest) 0))
      else NaN
  end.

(** *** [new URL(string)] on absolute URLs *)

Fixpoint break_at (sep : ascii) (s : list ascii) : list ascii * option (list ascii) :=
  match s with
  | [] => ([], None)
  | c :: rest =>
      if Ascii.eqb c sep then ([], Some rest)
      else let '(h, t) := break_at sep rest in (c :: h, t)
  end.

Fixpoint form_decode (s : list ascii) : list ascii :=
  match s with
  | [] => []
  | c :: rest =>
      if code c =? 43 then " "%char :: form_decode rest
      else
        match rest with
        | a :: b :: rest' =>
            match code c =? 37, hex_value a, hex_value b with
            | true, Some x1, Some x0 => char_of (x1 * 16 + x0) :: form_decode rest'
            | _, _, _ => c :: form_decode rest
            end
        | _ => c :: form_decode rest
        end
  end.

Definition parse_pair (s : string) : string * string :=
  let '(n, v) := break_at "="%char (chars s) in
  (text (form_decode n), text (form_decode (default [] v))).

Definition parse_query (q : list ascii) : list (string * string) :=
  map parse_pair (List.filter (fun s => negb (String.eqb s "")) (split "&" (text q))).

Definition is_alpha (c : ascii) : bool :=
  let n := code c in ((65 <=? n) && (n <=? 90)) || ((97 <=? n) && (n <=? 122)).

Definition new_URL (s : string) : exn + URL :=
  let '(before_fragment, fragment) := break_at "#"%char (chars s) in
  let '(base, query) := break_at "?"%char before_fragment in
  match break_at ":"%char base with
  | (c :: scheme, Some _) =>
      if is_alpha c && forallb (fun x => is_alpha x || is_digit x) scheme
      then inr (MkURL (text base) (parse_query (default [] query)) (text <$> fragment))
      else inl (Exn "Invalid URL")
  | _ => inl (Exn "Invalid URL")
  end.

Definition type_error_message (v : value) (k : string) : string :=
  "Cannot read properties of " +:+ ToString v +:+ " (reading '" +:+ k +:+ "')".

Definition platform : Platform := {|
  JSON_parse := parse;
  JSON_stringify := fun v => text (stringify v);
  StringToNumber := string_to_number;
  TypeError_message := type_error_message;
  URL_parse := new_URL
|}.

End Node.

(** ** Vocabulary of the statements *)

(** The part of [s] before its first [sep] (all of [s] without one) and
    the part after it (empty without one). *)
Fixpoint before_first (sep : ascii) (s : string) : string :=
  match s with
  | EmptyString => EmptyString
  | String c rest => if Ascii.eqb c sep then EmptyString else String c (before_first sep rest)
  end.

Fixpoint after_first (sep : ascii) (s : string) : string :=
  match s with
  | EmptyString => EmptyString
  | String c rest => if Ascii.eqb c sep then rest else after_first sep rest
  end.

(** Every character is a digit of the URL-safe alphabet: in particular
    none is the padding [=], nor [+] or [/]. *)
Definition url_safe (s : string) : Prop :=
  Forall (fun c => In c Base64url.alphabet) (String.list_ascii_of_string s).

(** The configuration [ensureOAuthConfig] resolves to, if it does. *)
Definition resolved_config (env : Env) (st : State) : option OAuthConfig :=
  match oauthConfig st with
  | Some config => Some config
  | None =>
      match getOAuthConfig env with
      | inr configs => Some (anthropic configs)
      | inl _ => None
      end
  end.

(** The next two draws of 32 random bytes, encoded: the verifier and the
    state of the flow started in [st]. *)
Definition next_verifier (env : Env) (st : State) : string :=
  Base64url.encode (map (entropy env) (seq (drawn st) 32)).

Definition next_state (env : Env) (st : State) : string :=
  Base64url.encode (map (entropy env) (seq (drawn st + 32) 32)).

Definition challenge_of (verifier : string) : string :=
  Base64url.encode (SHA256.digest (Buffer.from_string verifier)).

(** The query parameters [startAnthropicOAuth] sets, in the order of the
    calls. *)
Definition authorize_params (config : OAuthConfig) (state challenge : string)
  : list (string * string) :=
  [("code", "true");
   ("client_id", clientId config);
   ("response_type", "code");
   ("redirect_uri", redirectUri config);
   ("scope", join " " (scopes config));
   ("state", state);
   ("code_challenge", challenge);
   ("code_challenge_method", "S256")].

(** The URL [startAnthropicOAuth] builds from the parsed [authorizeUrl]. *)
Definition authorize_url (config : OAuthConfig) (state challenge : string) (u : URL) : URL :=
  fold_left (fun u p => searchParams_set (fst p) (snd p) u)
    (authorize_params config state challenge) u.

(** The parameters section 4.2 of the specification enumerates. *)
Definition enumerated_names : list string :=
  ["code_challenge"; "code_challenge_method"; "state"; "redirect_uri"; "scope";
   "response_type"; "client_id"].

Definition named (name : string) (l : list (string * string)) : list (string * string) :=
  List.filter (fun p => String.eqb (fst p) name) l.

Section Vocabulary.
Context `{Platform}.

(** The metadata of a row marks it as provisioned by the flow. *)
Definition is_oauth_generated (row : Connection) : bool :=
  strict_eq_string (Get_optional (parsed_metadata row) "type") "oauth_generated".

Definition cleared_row : Connection :=
  {| provider := "Anthropic"; apikey := VStr ""; google_Oauth := VStr "" |}.

(** The status record a row of the credential store stands for. *)
Definition status_of (row : option Connection) : StatusResult :=
  match row with
  | None => NotAuthenticated
  | Some row =>
      if truthy (apikey row)
      then Authenticated (is_oauth_generated row)
             (Get_optional (parsed_metadata row) "key_name")
             (Get_optional (parsed_metadata row) "partial_key_hint")
      else NotAuthenticated
  end.

(** The fields of a status record, as values. *)
Definition status_fields (r : StatusResult) : list value :=
  match r with
  | NotAuthenticated => [VBool false]
  | Authenticated isOAuthGenerated keyName keyHint =>
      [VBool true; VBool isOAuthGenerated; keyName; keyHint]
  end.

(** The state the token request carries: the asserted one when truthy,
    else the stored one. *)
Definition request_state (asserted : string) (stored : value) : value :=
  if truthy (VStr asserted) then VStr asserted else stored.

(** The state and the request the token exchange sends for a code and
    the properties of the stored attempt. *)
Definition received_state (authCode : string) (props : list (string * value)) : value :=
  let parts := authCode_parts authCode in
  if truthy (element 1 parts) then element 1 parts else lookup_prop "state" props.

Definition first_request (config : OAuthConfig) (authCode : string)
    (props : list (string * value)) : Request :=
  token_request config
    (tokenPayload (element 0 (authCode_parts authCode)) config
       (lookup_prop "verifier" props) (received_state authCode props)).

(** The token exchange in the words of section 4.2 of the specification:
    a POST to [tokenUrl] whose body is the JSON encoding of
    [{grant_type: authorization_code, code, redirect_uri, client_id,
    code_verifier, state}].  Written without reference to the action, to
    compare what the action sends against. *)
Definition exchange_fields (config : OAuthConfig) (code code_verifier state : value)
  : list (string * value) :=
  [("grant_type", VStr "authorization_code");
   ("code", code);
   ("redirect_uri", VStr (redirectUri config));
   ("client_id", VStr (clientId config));
   ("code_verifier", code_verifier);
   ("state", state)].

Definition is_token_exchange (config : OAuthConfig) (code code_verifier state : value)
    (r : Request) : Prop :=
  req_url r = tokenUrl config
  /\ req_method r = "POST"
  /\ req_body r = JSON_stringify (VObj (exchange_fields config code code_verifier state)).

(** The value of the [Authorization] header of a request, if it has one. *)
Definition authorization (r : Request) : option string :=
  snd <$> List.find (fun h => String.eqb (fst h) "Authorization") (req_headers r).

End Vocabulary.

(** ** A concrete scenario *)

Module Scenario.

#[local] Existing Instance Node.platform.

Definition config : OAuthConfig := {|
  clientId := "client-1";
  authorizeUrl := "https://claude.ai/oauth/authorize";
  tokenUrl := "https://console.anthropic.com/v1/oauth/token";
  apiKeyUrl := "https://api.anthropic.com/api/oauth/claude_cli/create_api_key";
  redirectUri := "https://console.anthropic.com/oauth/code/callback";
  scopes := ["org:create_api_key"; "user:profile"]
|}.

Definition tokenData : value := VObj [("access_token", VStr "tok"); ("expires_in", VNum 3600)].

Definition apiKeyData : value :=
  VObj [("raw_key", VStr "sk-abc"); ("id", VStr "1"); ("name", VStr "n");
        ("created_at", VStr "2024-01-01"); ("partial_key_hint", VStr "sk-...c")].

(** The token endpoint and the issuance endpoint answer with the two
    documents above; nothing else is reachable. *)
Definition mock_fetch (req : Request) : exn + Response :=
  if String.eqb (req_url req) (tokenUrl config)
  then inr {| ok := true; body := Node.text (Node.stringify tokenData) |}
  else if String.eqb (req_url req) (apiKeyUrl config)
       then inr {| ok := true; body := Node.text (Node.stringify apiKeyData) |}
       else inl (Exn "fetch failed").

Definition env : Env := {|
  getOAuthConfig := inr {| anthropic := config |};
  fetch := mock_fetch;
  entropy := fun n => Buffer.of_Z (7 * Z.of_nat n + 3);
  gemini_isAuthenticated := inr true;
  gemini_authWithWeb := inr ("https://accounts.google.com/o/oauth2/v2/auth", 1%nat);
  gemini_clearCachedCredentials := inr tt
|}.

Definition initial : State := {|
  oauthConfig := None;
  keyValue := ∅;
  connection := ∅;
  requests := [];
  drawn := 0;
  authPromises := ∅;
  timers := [];
  gemini_calls := []
|}.

(** The state after [startAnthropicOAuth] at time 1000. *)
Definition started : State := snd (startAnthropicOAuth env 1000 initial).

(** The state after [completeAnthropicOAuth] with the code [code123] at
    time 2000. *)
Definition completed : State := snd (completeAnthropicOAuth env "code123" 2000 started).

(** The attempt [started] holds, as stored and as read back. *)
Definition stored_attempt : string :=
  JSON_stringify
    (oauthData_object (next_verifier env initial) (next_state env initial) 1000).

Definition attempt_props : list (string * value) :=
  [("verifier", VStr (next_verifier env initial));
   ("state", VStr (next_state env initial));
   ("timestamp", VNum 1000)].

(** A store holding a key the user entered, with metadata of its own. *)
Definition manual_row (secret : string) (metadata : value) : Connection :=
  {| provider := "Anthropic"; apikey := VStr secret;
     google_Oauth := VStr (Node.text (Node.stringify metadata)) |}.

Definition with_row (row : Connection) : State :=
  upsert_connection row initial.

End Scenario.

(** ** The deferred cleanup of the Gemini login *)

(** The callback [() => authPromises.delete(authUrl)] of the timer queued
    first: timers of equal delay run in the order they were set. *)
Definition fire_timer (st : State) : State :=
  match timers st with
  | [] => st
  | (_, authUrl) :: rest =>
      set_timers rest (set_authPromises (delete authUrl (authPromises st)) st)
  end.

(** The row [completeAnthropicOAuth] writes for a key and its metadata. *)
Definition flow_row `{Platform} (raw_key key_id key_name created_at partial_key_hint : value)
  : Connection :=
  {| provider := "Anthropic";
     apikey := raw_key;
     google_Oauth :=
       VStr (JSON_stringify (apiKey_metadata key_id key_name created_at partial_key_hint)) |}.

(** ** Environments and states of the failure cases *)

Module Cases.

#[local] Existing Instance Node.platform.

Definition with_loader (loader : exn + Configs) (e : Env) : Env :=
  {| getOAuthConfig := loader; fetch := fetch e; entropy := entropy e;
     gemini_isAuthenticated := gemini_isAuthenticated e;
     gemini_authWithWeb := gemini_authWithWeb e;
     gemini_clearCachedCredentials := gemini_clearCachedCredentials e |}.

Definition with_fetch (f : Request -> exn + Response) (e : Env) : Env :=
  {| getOAuthConfig := getOAuthConfig e; fetch := f; entropy := entropy e;
     gemini_isAuthenticated := gemini_isAuthenticated e;
     gemini_authWithWeb := gemini_authWithWeb e;
     gemini_clearCachedCredentials := gemini_clearCachedCredentials e |}.

Definition with_gemini (authenticated : exn + bool) (web : exn + (string * Promise))
    (cleared : exn + unit) (e : Env) : Env :=
  {| getOAuthConfig := getOAuthConfig e; fetch := fetch e; entropy := entropy e;
     gemini_isAuthenticated := authenticated;
     gemini_authWithWeb := web;
     gemini_clearCachedCredentials := cleared |}.

(** The URL returned by the start of the scenario. *)
Definition started_url : string :=
  match fst (startAnthropicOAuth Scenario.env 1000 Scenario.initial) with
  | StartSuccess authUrl _ _ => authUrl
  | StartFailure _ => ""
  end.

(** The configuration cannot be loaded. *)
Definition offline : Env := with_loader (inl (Exn "config unavailable")) Scenario.env.

(** The configured [authorizeUrl] is no URL. *)
Definition misconfigured : Env :=
  with_loader
    (inr {| anthropic :=
              {| clientId := "client-1"; authorizeUrl := "claude.ai/oauth";
                 tokenUrl := tokenUrl Scenario.config;
                 apiKeyUrl := apiKeyUrl Scenario.config;
                 redirectUri := redirectUri Scenario.config;
                 scopes := scopes Scenario.config |} |})
    Scenario.env.

(** The token endpoint refuses the code. *)
Definition token_rejected : Env :=
  with_fetch (fun _ => inr {| ok := false; body := "invalid_grant" |}) Scenario.env.

(** The token endpoint accepts, the issuance endpoint refuses. *)
Definition issuance_rejected : Env :=
  with_fetch
    (fun req =>
       if String.eqb (req_url req) (tokenUrl Scenario.config)
       then inr {| ok := true; body := JSON_stringify Scenario.tokenData |}
       else inr {| ok := false; body := "forbidden" |})
    Scenario.env.

(** [fetch] throws an error without a message. *)
Definition unreachable : Env := with_fetch (fun _ => inl (Exn "")) Scenario.env.

Definition login_url : string := "https://accounts.google.com/o/oauth2/v2/auth".

(** Gemini has no authenticated user and hands out [login_url]. *)
Definition anonymous (p : Promise) : Env :=
  with_gemini (inr false) (inr (login_url, p)) (inr tt) Scenario.env.

(** The Gemini service throws on every call. *)
Definition gemini_down : Env :=
  with_gemini (inl (Exn "gemini unavailable")) (inl (Exn "gemini unavailable"))
    (inl (Exn "cache locked")) Scenario.env.

(** A state whose session store holds [text] and whose configuration is
    cached. *)
Definition with_session (text : string) : State :=
  upsert_keyValue oauth_data_key text
    (set_oauthConfig (Some Scenario.config) Scenario.initial).


Definition undated_props : list (string * value) :=
  [("verifier", VStr "v"); ("state", VStr "s")].

Definition undated_session : State := with_session (JSON_stringify (VObj undated_props)).

(** Rows of the credential store: a Gemini row beside a key the user
    entered for Anthropic, with metadata that is no JSON. *)
Definition two_rows : State :=
  upsert_connection
    {| provider := "Gemini CLI"; apikey := VStr "g"; google_Oauth := VStr "" |}
    (upsert_connection
       {| provider := "Anthropic"; apikey := VStr "sk-manual"; google_Oauth := VStr "n/a" |}
       Scenario.initial).

End Cases.

(** ** Reasoning about actions *)

(** [wp m st Q]: running [m] in [st] ends, by a return or by a throw, in
    an outcome and a state that satisfy [Q]. *)
Definition wp {A} (m : M A) (st : State) (Q : exn + A -> State -> Prop) : Prop :=
  Q (m st).1 (m st).2.

(** An action leaves the observation [f] of the state as it was. *)
Definition preserves {A B} (f : State -> B) (m : M A) : Prop :=
  forall st, f (m st).2 = f st.

(** An action only appends to the trace of requests. *)
Definition extends_trace {A} (m : M A) : Prop :=
  forall st, exists sent, requests (m st).2 = requests st ++ sent.

(** An action keeps the invariant [I] of the state. *)
Definition maintains {A} (I : State -> Prop) (m : M A) : Prop :=
  forall st, I st -> I (m st).2.

(** The trace of [st] starts with [base]. *)
Definition sent_after (base : list Request) (st : State) : Prop :=
  exists sent, requests st = base ++ sent.

(** * Properties *)

(** ** Encodings *)

Example sha256_abc :
  hex (SHA256.digest (Buffer.from_string "abc"))
  = "ba7816bf8f01cfea414140de5dae2223b00361a396177a9cb410ff61f20015ad".
Proof. vm_compute. reflexivity. Qed.

Example sha256_two_blocks :
  hex (SHA256.digest (Buffer.from_string
         "The quick brown fox jumps over the lazy dog and keeps on running past sixty-four bytes."))
  = "92de86db3810b5abb6878e37b70a669f02094a144c8e93310308b36697c34ea3".
Proof. vm_compute. reflexivity. Qed.

Example base64url_tails :
  Base64url.encode [x00; x01; x02] = "AAEC"
  /\ Base64url.encode [xfb; xff] = "-_8"
  /\ Base64url.encode [xff] = "_w".
Proof. repeat split; reflexivity. Qed.

Lemma list_triples_ind {A} (P : list A -> Prop) :
  P [] -> (forall a, P [a]) -> (forall a b, P [a; b]) ->
  (forall a b c l, P l -> P (a :: b :: c :: l)) ->
  forall l, P l.
Proof.
  intros H0 H1 H2 H3 l.
  assert (P l /\ (forall a, P (a :: l)) /\ (forall a b, P (a :: b :: l))) as [Hl _].
  { induction l as [|x l (IH0 & IH1 & IH2)]; [by auto|].
    split; [apply IH1|]. split; [intros a; apply IH2|]. intros a b. by apply H3. }
  exact Hl.
Qed.

Lemma encoded_length_step n :
  Base64url.encoded_length (3 + n) = (4 + Base64url.encoded_length n)%nat.
Proof.
  unfold Base64url.encoded_length.
  replace (3 + n)%nat with (n + 1 * 3)%nat by lia.
  rewrite Nat.div_add, Nat.Div0.mod_add by lia. lia.
Qed.

Lemma base64url_length (bs : list byte) :
  String.length (Base64url.encode bs) = Base64url.encoded_length (length bs).
Proof.
  induction bs as [| a | a b | a b c l IH] using list_triples_ind; try reflexivity.
  change (length (a :: b :: c :: l)) with (3 + length l)%nat.
  rewrite encoded_length_step. cbn [Base64url.encode String.length]. rewrite IH. lia.
Qed.

Lemma base64url_digit_in n : In (Base64url.digit n) Base64url.alphabet.
Proof.
  unfold Base64url.digit. apply nth_In.
  change (length Base64url.alphabet) with 64%nat.
  pose proof (Z.mod_pos_bound n 64 eq_refl). lia.
Qed.

Lemma base64url_url_safe (bs : list byte) : url_safe (Base64url.encode bs).
Proof.
  unfold url_safe.
  induction bs as [| a | a b | a b c l IH] using list_triples_ind;
    cbn [Base64url.encode String.list_ascii_of_string];
    repeat (apply Forall_cons; split; [apply base64url_digit_in|]);
    auto using Forall_nil.
Qed.

Lemma url_safe_no_padding s : url_safe s -> includes "=" s = false.
Proof.
  unfold url_safe. induction s as [|c s IH]; [done|].
  cbn [String.list_ascii_of_string includes]. intros Hs.
  apply Forall_cons in Hs as [Hc Hs]. rewrite (IH Hs), orb_false_r.
  apply Ascii.eqb_neq. intros ->. revert Hc. vm_compute. intuition discriminate.
Qed.

Lemma sha256_digest_length (msg : list byte) : length (SHA256.digest msg) = 32%nat.
Proof. unfold SHA256.digest. cbv zeta. reflexivity. Qed.

(** ** PKCE *)

(** C7. [generatePKCE] draws 32 random bytes; the verifier is their
    URL-safe base64 encoding without padding (43 digits of the URL-safe
    alphabet), and the challenge is the same encoding of the SHA-256
    digest of the verifier string (again 43 digits, no padding). *)
Theorem generatePKCE_round_trip (env : Env) (st : State) :
  let bytes := map (entropy env) (seq (drawn st) 32) in
  let v := Base64url.encode bytes in
  let c := Base64url.encode (SHA256.digest (Buffer.from_string v)) in
  generatePKCE env st = (inr {| verifier := v; challenge := c |}, set_drawn (drawn st + 32) st)
  /\ length bytes = 32%nat
  /\ String.length v = 43%nat /\ url_safe v /\ includes "=" v = false
  /\ String.length c = 43%nat /\ url_safe c /\ includes "=" c = false.
Proof.
  intros bytes v c. split; [reflexivity|].
  assert (length bytes = 32%nat) as Hb
    by (unfold bytes; rewrite length_map, length_seq; reflexivity).
  split; [exact Hb|].
  assert (String.length v = 43%nat) as Hv
    by (unfold v; rewrite base64url_length, Hb; reflexivity).
  assert (String.length c = 43%nat) as Hc
    by (unfold c; rewrite base64url_length, sha256_digest_length; reflexivity).
  pose proof (base64url_url_safe bytes) as Sv.
  pose proof (base64url_url_safe (SHA256.digest (Buffer.from_string v))) as Sc.
  auto 10 using url_safe_no_padding.
Qed.

(** The encodings stay folded while actions are run symbolically. *)
Arguments Base64url.encode : simpl never.
Arguments SHA256.digest : simpl never.

(** ** Rules for actions *)

Lemma wp_bind {A B} (m : M A) (k : A -> M B) st Q :
  wp m st (fun r st' => match r with
                        | inl e => Q (inl e) st'
                        | inr a => wp (k a) st' Q
                        end) ->
  wp (bind m k) st Q.
Proof. unfold wp, bind. by destruct (m st) as [[e|a] st']. Qed.

Lemma wp_try_catch {A} (body : M A) handler st (P : A * State -> Prop) :
  wp body st (fun r st' => match r with
                           | inl e => P (handler e st')
                           | inr a => P (a, st')
                           end) ->
  P (try_catch body handler st).
Proof. unfold wp, try_catch. by destruct (body st) as [[e|a] st']. Qed.

Lemma wp_preserves {A B} (f : State -> B) (m : M A) st Q :
  preserves f m -> (forall r st', f st' = f st -> Q r st') -> wp m st Q.
Proof. intros Hm HQ. apply HQ, Hm. Qed.

Lemma preserves_ret {A B} (f : State -> B) (a : A) : preserves f (ret a).
Proof. done. Qed.

Lemma preserves_if {A B} (f : State -> B) (b : bool) (m1 m2 : M A) :
  preserves f m1 -> preserves f m2 -> preserves f (if b then m1 else m2).
Proof. by destruct b. Qed.

Lemma extends_trace_ret {A} (a : A) : extends_trace (ret a).
Proof. intros st. exists []. by rewrite app_nil_r. Qed.

Lemma extends_trace_if {A} (b : bool) (m1 m2 : M A) :
  extends_trace m1 -> extends_trace m2 -> extends_trace (if b then m1 else m2).
Proof. by destruct b. Qed.

Lemma extends_trace_preserves {A} (m : M A) : preserves requests m -> extends_trace m.
Proof. intros Hm st. exists []. by rewrite Hm, app_nil_r. Qed.

Lemma wp_maintains {A} (I : State -> Prop) (m : M A) st Q :
  maintains I m -> I st -> (forall r st', I st' -> Q r st') -> wp m st Q.
Proof. intros Hm Hst HQ. by apply HQ, Hm. Qed.

Lemma maintains_extends {A} base (m : M A) : extends_trace m -> maintains (sent_after base) m.
Proof.
  intros Hm st [sent Hst]. destruct (Hm st) as [sent' Hst'].
  exists (sent ++ sent'). by rewrite Hst', Hst, app_assoc.
Qed.

Lemma split_first sep s :
  split sep s
  = before_first sep s :: (if includes sep s then split sep (after_first sep s) else []).
Proof.
  induction s as [|c s IH]; [done|]. cbn.
  destruct (Ascii.eqb c sep); [done|]. by rewrite IH.
Qed.

Lemma before_first_excludes sep s : includes sep (before_first sep s) = false.
Proof.
  induction s as [|c s IH]; [done|]. cbn.
  destruct (Ascii.eqb c sep) eqn:Hc; [done|]. cbn. by rewrite Hc.
Qed.

Lemma first_separator sep s :
  includes sep s = true ->
  s = before_first sep s +:+ String sep (after_first sep s).
Proof.
  induction s as [|c s IH]; [done|]. cbn.
  destruct (Ascii.eqb_spec c sep) as [->|]; [done|]. cbn. intros Hs.
  change (String c s = String c (before_first sep s +:+ String sep (after_first sep s))).
  by rewrite <- IH.
Qed.

Lemma truthy_nonempty s : s <> "" -> truthy (VStr s) = true.
Proof. intros Hs. cbn. by destruct (String.eqb_spec s ""). Qed.

Section ActionFacts.
Context `{Platform} (env : Env).

Lemma Get_state v k st : (Get v k st).2 = st.
Proof. by destruct v. Qed.

Lemma Get_object props k st : Get (VObj props) k st = (inr (lookup_prop k props), st).
Proof. reflexivity. Qed.

Lemma preserves_Get {B} (f : State -> B) v k : preserves f (Get v k).
Proof. intros st. by rewrite Get_state. Qed.

Lemma preserves_json {B} (f : State -> B) r : preserves f (Response_json r).
Proof. done. Qed.

Lemma ensureOAuthConfig_state st :
  (ensureOAuthConfig env st).2 = st
  \/ exists c, (ensureOAuthConfig env st).2 = set_oauthConfig (Some c) st.
Proof.
  unfold ensureOAuthConfig, bind, gets, lift, modify, ret. cbn.
  destruct (oauthConfig st); [by left|]. destruct (getOAuthConfig env); [by left|].
  right. eauto.
Qed.

Lemma set_oauthConfig_cached c st : oauthConfig st = Some c -> set_oauthConfig (Some c) st = st.
Proof. destruct st. cbn. by intros ->. Qed.

Lemma ensureOAuthConfig_resolved st config :
  resolved_config env st = Some config ->
  ensureOAuthConfig env st = (inr config, set_oauthConfig (Some config) st).
Proof.
  unfold resolved_config, ensureOAuthConfig, bind, gets, lift, modify, ret. cbn.
  destruct (oauthConfig st) as [c|] eqn:Hc.
  - intros [= <-]. by rewrite set_oauthConfig_cached.
  - destruct (getOAuthConfig env); [done|]. by intros [= <-].
Qed.

Lemma preserves_keyValue_ensure : preserves keyValue (ensureOAuthConfig env).
Proof. intros st. by destruct (ensureOAuthConfig_state st) as [-> | [c ->]]. Qed.

Lemma preserves_requests_ensure : preserves requests (ensureOAuthConfig env).
Proof. intros st. by destruct (ensureOAuthConfig_state st) as [-> | [c ->]]. Qed.

Lemma preserves_keyValue_fetch req : preserves keyValue (do_fetch env req).
Proof. done. Qed.

Lemma preserves_keyValue_upsert row : preserves keyValue (connection_upsert row).
Proof. done. Qed.

Lemma extends_trace_fetch req : extends_trace (do_fetch env req).
Proof. intros st. by exists [req]. Qed.

Lemma generatePKCE_eq st :
  generatePKCE env st
  = (inr {| verifier := next_verifier env st;
            challenge := challenge_of (next_verifier env st) |},
     set_drawn (drawn st + 32) st).
Proof. reflexivity. Qed.

Lemma generateState_eq st :
  generateState env st
  = (inr (Base64url.encode (map (entropy env) (seq (drawn st) 32))),
     set_drawn (drawn st + 32) st).
Proof. reflexivity. Qed.

End ActionFacts.

Lemma checkAnthropicAuthStatus_eq `{Platform} (st : State) :
  checkAnthropicAuthStatus st = (status_of (connection st !! "Anthropic"), st).
Proof.
  unfold checkAnthropicAuthStatus, try_catch, bind, connection_getByProvider, gets, status_of.
  cbn. destruct (connection st !! "Anthropic") as [row|]; [|done].
  by destruct (truthy (apikey row)).
Qed.

Ltac wp_run := apply wp_bind; unfold wp at 1.

Ltac wp_keep f :=
  apply wp_bind, (wp_preserves f);
  [ repeat first [ apply preserves_if | apply preserves_ret
                 | apply preserves_Get | apply preserves_json
                 | apply preserves_keyValue_ensure | apply preserves_requests_ensure
                 | apply preserves_keyValue_fetch | apply preserves_keyValue_upsert ]
  | let r := fresh "r" in
    let st := fresh "st" in
    let Hst := fresh "Hst" in
    intros [r|r] st Hst ].

(** ** Completing a flow: cleanup, expiry and missing sessions *)

Section Complete.
Context `{Platform} (env : Env).

(** C2 (amended). For a non-empty code and a stored attempt that
    parses, [completeAnthropicOAuth] leaves the session store without
    the attempt, and otherwise as it was, whether it returns success or
    any failure. *)
Theorem complete_deletes_attempt (authCode : string) (now : Z) (st : State)
    (stored : string) (oauthData : value) :
  authCode <> "" ->
  keyValue st !! oauth_data_key = Some stored ->
  stored <> "" ->
  JSON_parse stored = inr oauthData ->
  let st' := (completeAnthropicOAuth env authCode now st).2 in
  keyValue st' = delete oauth_data_key (keyValue st)
  /\ keyValue st' !! oauth_data_key = None.
Proof.
  intros Hc Hs Hne Hp st'.
  assert (keyValue st' = delete oauth_data_key (keyValue st)) as Hkv;
    [|split; [done|by rewrite Hkv, lookup_delete_eq]].
  subst st'. unfold completeAnthropicOAuth. rewrite (truthy_nonempty _ Hc). cbn [negb].
  apply (wp_try_catch _ _ _ (fun p => keyValue p.2 = delete oauth_data_key (keyValue st))).
  wp_keep keyValue; [cbn; congruence|].
  apply wp_bind. unfold wp at 1. cbn. rewrite Hst, Hs.
  destruct stored as [|c stored']; [done|]. rewrite Hp.
  wp_keep keyValue; [cbn; congruence|].
  destruct (number_gt _ _); [cbn; congruence|].
  do 3 (wp_keep keyValue; [cbn; congruence|]).
  destruct (negb _); [cbn; congruence|].
  do 3 (wp_keep keyValue; [cbn; congruence|]).
  destruct (negb _); [cbn; congruence|].
  do 7 (wp_keep keyValue; [cbn; congruence|]).
  cbn. congruence.
Qed.

(** A stored text that does not parse is answered from inside the inner
    [try]: the outer handler does not run and the text stays stored. *)
Lemma complete_unparseable_attempt (authCode : string) (now : Z) (st : State)
    (config : OAuthConfig) (stored : string) (e : exn) :
  authCode <> "" ->
  resolved_config env st = Some config ->
  keyValue st !! oauth_data_key = Some stored ->
  stored <> "" ->
  JSON_parse stored = inl e ->
  completeAnthropicOAuth env authCode now st
  = (CompleteFailure "Invalid OAuth session data", set_oauthConfig (Some config) st).
Proof.
  intros Hc Hcfg Hs Hne Hp.
  unfold completeAnthropicOAuth. rewrite (truthy_nonempty _ Hc). cbn [negb].
  apply (wp_try_catch _ _ _ (fun p => p = _)).
  wp_run. rewrite (ensureOAuthConfig_resolved env _ _ Hcfg). cbn [fst snd].
  wp_run. cbn [keyValue_get gets fst snd set_oauthConfig keyValue]. rewrite Hs.
  destruct stored as [|c stored']; [done|]. by rewrite Hp.
Qed.

(** C4 (amended). With a non-empty code, a resolved provider
    configuration and no stored attempt, [completeAnthropicOAuth] fails
    with the session-not-found error and leaves the credential store,
    the session store and the network alone. *)
Theorem complete_without_session (authCode : string) (now : Z) (st : State)
    (config : OAuthConfig) :
  authCode <> "" ->
  resolved_config env st = Some config ->
  keyValue st !! oauth_data_key = None ->
  exists st',
    completeAnthropicOAuth env authCode now st
    = (CompleteFailure
         "OAuth session not found. Please start the authentication process again.", st')
    /\ connection st' = connection st
    /\ keyValue st' = keyValue st
    /\ requests st' = requests st.
Proof.
  intros Hc Hcfg Hs. exists (set_oauthConfig (Some config) st).
  split; [|done].
  unfold completeAnthropicOAuth. rewrite (truthy_nonempty _ Hc). cbn [negb].
  apply (wp_try_catch _ _ _ (fun p => p = _)).
  wp_run. rewrite (ensureOAuthConfig_resolved env _ _ Hcfg). cbn [fst snd].
  wp_run. cbn. by rewrite Hs.
Qed.

Lemma authCode_parts_composite authCode :
  includes "#" authCode = true ->
  element 0 (authCode_parts authCode) = VStr (before_first "#" authCode)
  /\ element 1 (authCode_parts authCode)
     = VStr (before_first "#" (after_first "#" authCode)).
Proof.
  intros Hi. unfold authCode_parts. rewrite Hi, split_first, Hi.
  by rewrite (split_first _ (after_first _ _)).
Qed.

Lemma includes_nonempty sep s : includes sep s = true -> s <> "".
Proof. by destruct s. Qed.

Lemma wp_state_choice asserted props st Q :
  Q (inr (request_state asserted (lookup_prop "state" props))) st ->
  wp (if truthy (VStr asserted) then ret (VStr asserted) else Get (VObj props) "state") st Q.
Proof. unfold wp, request_state. by destruct (truthy _). Qed.

Ltac wp_sent base :=
  apply wp_bind, (wp_maintains (sent_after base));
  [ apply maintains_extends;
    repeat first [ apply extends_trace_if | apply extends_trace_ret
                 | apply extends_trace_fetch
                 | apply extends_trace_preserves;
                   first [ apply preserves_Get | apply preserves_json | done ] ]
  | done
  | let r := fresh "r" in
    let st := fresh "st" in
    let Hst := fresh "Hst" in
    intros [r|r] st Hst ].

Lemma token_request_is_exchange `{Platform} (config : OAuthConfig)
    (code code_verifier state : value) :
  is_token_exchange config code code_verifier state
    (token_request config (tokenPayload code config code_verifier state)).
Proof. by repeat split. Qed.

(** C5 (amended). Let the provider configuration resolve and the session
    store hold an attempt whose text parses to an object and which is not
    expired.  Then a code containing [#] is cut at its first [#], and the
    first request the call sends is the token exchange of section 4.2: a
    POST to the token URL whose JSON body has, as [code], the part before
    the first [#]; as [code_verifier], the stored verifier; and as
    [state], the asserted state when it is not empty and the stored state
    otherwise.  The asserted state is the part between the first [#] and
    the next one (the whole remainder when there is no other). *)
Theorem complete_composite_code (authCode : string) (now : Z) (st : State)
    (config : OAuthConfig) (stored : string) (props : list (string * value)) :
  let code := before_first "#" authCode in
  let asserted := before_first "#" (after_first "#" authCode) in
  includes "#" authCode = true ->
  resolved_config env st = Some config ->
  keyValue st !! oauth_data_key = Some stored ->
  stored <> "" ->
  JSON_parse stored = inr (VObj props) ->
  number_gt (number_sub (Num now) (ToNumber (lookup_prop "timestamp" props))) (Num 600000)
  = false ->
  authCode = code +:+ String "#" (after_first "#" authCode)
  /\ includes "#" code = false
  /\ includes "#" asserted = false
  /\ exists r sent,
      requests (completeAnthropicOAuth env authCode now st).2 = requests st ++ r :: sent
      /\ is_token_exchange config (VStr code) (lookup_prop "verifier" props)
           (request_state asserted (lookup_prop "state" props)) r.
Proof.
  intros code asserted Hi Hcfg Hs Hne Hp Hfresh.
  split; [by apply first_separator|].
  split; [apply before_first_excludes|]. split; [apply before_first_excludes|].
  destruct (authCode_parts_composite _ Hi) as [Hcode Hstate].
  cut (exists sent,
         requests (completeAnthropicOAuth env authCode now st).2
         = requests st
           ++ token_request config
                (tokenPayload (VStr code) config (lookup_prop "verifier" props)
                   (request_state asserted (lookup_prop "state" props)))
           :: sent).
  { intros [sent Hsent]. eexists _, sent. split; [exact Hsent|].
    apply token_request_is_exchange. }
  unfold completeAnthropicOAuth.
  rewrite (truthy_nonempty _ (includes_nonempty _ _ Hi)). cbn [negb].
  apply (wp_try_catch _ _ _
           (fun p => exists sent, requests p.2 = requests st ++ _ :: sent)).
  wp_run. rewrite (ensureOAuthConfig_resolved env _ _ Hcfg). cbn [fst snd].
  wp_run. cbn [keyValue_get gets fst snd set_oauthConfig keyValue]. rewrite Hs.
  destruct stored as [|c stored']; [done|]. rewrite Hp.
  wp_run. rewrite Get_object. cbn [fst snd]. rewrite Hfresh.
  wp_run. rewrite Get_object. cbn [fst snd].
  rewrite Hcode, Hstate. fold code asserted.
  apply wp_bind, wp_state_choice.
  wp_run. cbn [do_fetch fst snd].
  set (req := token_request _ _).
  set (st1 := set_requests _ _).
  assert (sent_after (requests st ++ [req]) st1) as Hst1
    by (exists []; by rewrite app_nil_r).
  assert (forall st',
            sent_after (requests st ++ [req]) st' ->
            exists sent, requests st' = requests st ++ req :: sent) as Hret.
  { intros st' [sent Hsent]. exists sent. by rewrite Hsent, <- app_assoc. }
  clearbody st1.
  destruct (fetch env req) as [e|tokenResponse]; [exact (Hret _ Hst1)|].
  cbn [fst snd].
  destruct (negb (ok tokenResponse)); [exact (Hret _ Hst1)|].
  do 2 (wp_sent (requests st ++ [req]); [apply Hret; assumption|]).
  wp_sent (requests st ++ [req]); [apply Hret; assumption|].
  destruct (negb (ok _)); [apply Hret; assumption|].
  do 6 (wp_sent (requests st ++ [req]); [apply Hret; assumption|]).
  apply Hret. cbn in *. assumption.
Qed.
End Complete.

(** ** Strings and search parameters *)

Lemma append_assoc (a b c : string) : (a +:+ b) +:+ c = a +:+ b +:+ c.
Proof. induction a as [|x a IH]; [done|]. exact (f_equal (String x) IH). Qed.

Lemma append_empty_r (a : string) : a +:+ "" = a.
Proof. induction a as [|x a IH]; [done|]. exact (f_equal (String x) IH). Qed.

Lemma contains_self (s : string) : contains s s.
Proof. exists "", "". cbn. by rewrite append_empty_r. Qed.

Lemma contains_append_l (a s sub : string) : contains s sub -> contains (a +:+ s) sub.
Proof. intros (pre & post & ->). exists (a +:+ pre), post. by rewrite append_assoc. Qed.

Lemma contains_append_r (s b sub : string) : contains s sub -> contains (s +:+ b) sub.
Proof.
  intros (pre & post & ->). exists pre, (post +:+ b). by rewrite !append_assoc.
Qed.

Lemma join_contains (sep : string) (l : list string) (x : string) :
  In x l -> contains (join sep l) x.
Proof.
  induction l as [|y l IH]; [done|].
  intros [->|Hx].
  - destruct l; [apply contains_self|]. cbn [join]. apply contains_append_r, contains_self.
  - destruct l as [|z l]; [done|].
    change (join sep (y :: z :: l)) with (y +:+ sep +:+ join sep (z :: l)).
    by apply contains_append_l, contains_append_l, IH.
Qed.

Lemma urlencoded_serialize_contains (l : list (string * string)) (n v : string) :
  In (n, v) l ->
  contains (urlencoded_serialize l) (urlencode n +:+ "=" +:+ urlencode v).
Proof.
  intros Hin. apply join_contains.
  change (urlencode n +:+ "=" +:+ urlencode v)
    with ((fun p : string * string => urlencode (fst p) +:+ "=" +:+ urlencode (snd p)) (n, v)).
  by apply in_map.
Qed.

Lemma URL_toString_contains (u : URL) (n v : string) :
  In (n, v) (searchParams u) ->
  contains (URL_toString u) (urlencode n +:+ "=" +:+ urlencode v).
Proof.
  intros Hin. unfold URL_toString.
  destruct (searchParams u) as [|p l] eqn:Hl; [done|]. rewrite <- Hl in *.
  apply contains_append_l, contains_append_r, contains_append_l.
  by apply urlencoded_serialize_contains.
Qed.

Lemma named_cons (name k x : string) (l : list (string * string)) :
  named name ((k, x) :: l)
  = if String.eqb k name then (k, x) :: named name l else named name l.
Proof. reflexivity. Qed.

Lemma named_rejected (name : string) (l : list (string * string)) :
  named name (List.filter (fun p => negb (String.eqb (fst p) name)) l) = [].
Proof.
  unfold named. induction l as [|[k x] l IH]; [done|]. cbn.
  destruct (String.eqb k name) eqn:Hk; [done|]. cbn. by rewrite Hk.
Qed.

Lemma named_other_rejected (name other : string) (l : list (string * string)) :
  other <> name ->
  named other (List.filter (fun p => negb (String.eqb (fst p) name)) l) = named other l.
Proof.
  unfold named. intros Hne. induction l as [|[k x] l IH]; [done|]. cbn.
  destruct (String.eqb_spec k name) as [->|Hk]; cbn.
  - by destruct (String.eqb_spec name other) as [->|].
  - destruct (String.eqb k other); [|done]. by rewrite IH.
Qed.

Lemma named_params_set (name val : string) (l : list (string * string)) :
  named name (params_set name val l) = [(name, val)].
Proof.
  induction l as [|[k x] l IH]; cbn [params_set].
  - by rewrite named_cons, String.eqb_refl.
  - destruct (String.eqb k name) eqn:Hk; rewrite named_cons.
    + by rewrite String.eqb_refl, named_rejected.
    + by rewrite Hk.
Qed.

Lemma named_params_set_other (name val other : string) (l : list (string * string)) :
  other <> name -> named other (params_set name val l) = named other l.
Proof.
  intros Hne. induction l as [|[k x] l IH]; cbn [params_set].
  - rewrite named_cons. by destruct (String.eqb_spec name other) as [->|].
  - destruct (String.eqb_spec k name) as [->|Hk]; rewrite !named_cons.
    + destruct (String.eqb_spec name other) as [->|]; [done|].
      by apply named_other_rejected.
    + by rewrite IH.
Qed.

Lemma params_set_In (name val : string) (l : list (string * string)) :
  In (name, val) (params_set name val l).
Proof.
  induction l as [|[k x] l IH]; cbn; [by left|].
  destruct (String.eqb k name); [by left|by right].
Qed.

(** ** Starting a flow *)

Section Start.
Context `{Platform} (env : Env).

Lemma start_success (now : Z) (st : State) (config : OAuthConfig) (u : URL) :
  let v := next_verifier env st in
  let s := next_state env st in
  resolved_config env st = Some config ->
  URL_parse (authorizeUrl config) = inr u ->
  startAnthropicOAuth env now st
  = (StartSuccess (URL_toString (authorize_url config s (challenge_of v) u)) v s,
     upsert_keyValue oauth_data_key (JSON_stringify (oauthData_object v s now))
       (set_drawn (drawn st + 32 + 32) (set_oauthConfig (Some config) st))).
Proof.
  intros v s Hcfg Hu. unfold startAnthropicOAuth.
  apply (wp_try_catch _ _ _ (fun p => p = _)).
  wp_run. rewrite (ensureOAuthConfig_resolved env _ _ Hcfg). cbn [fst snd].
  wp_run. rewrite generatePKCE_eq. cbn [fst snd].
  wp_run. rewrite generateState_eq. cbn [fst snd].
  wp_run. cbn [lift fst snd]. rewrite Hu.
  reflexivity.
Qed.

(** C6 (amended). The authorization URL is the configured
    [authorizeUrl] with its search parameters updated: each of [code]
    (= true), [client_id], [response_type] (= code), [redirect_uri],
    [scope] (the scopes joined by spaces), [state], [code_challenge]
    and [code_challenge_method] (= S256) occurs exactly once with that
    value, and a parameter under any other name is one the configured
    URL already had.  They are serialized form-urlencoded. *)
Theorem start_authorization_url (now : Z) (st : State) (config : OAuthConfig) (u : URL) :
  let v := next_verifier env st in
  let s := next_state env st in
  resolved_config env st = Some config ->
  URL_parse (authorizeUrl config) = inr u ->
  exists params,
    (startAnthropicOAuth env now st).1
    = StartSuccess (URL_toString (MkURL (url_base u) params (url_fragment u))) v s
    /\ (forall name val,
          In (name, val) (authorize_params config s (challenge_of v)) ->
          named name params = [(name, val)])
    /\ (forall name,
          ~ In name (map fst (authorize_params config s (challenge_of v))) ->
          named name params = named name (searchParams u)).
Proof.
  intros v s Hcfg Hu. rewrite (start_success now st config u Hcfg Hu).
  unfold authorize_url, authorize_params.
  cbn [fold_left fst snd]. unfold searchParams_set.
  cbn [searchParams url_base url_fragment].
  eexists. split; [reflexivity|]. split.
  - intros name val Hin. cbn [In] in Hin.
    repeat (destruct Hin as [Hin|Hin];
            [ injection Hin as <- <-;
              repeat (rewrite named_params_set_other by discriminate);
              apply named_params_set |]).
    done.
  - intros name Hname. cbn [In map fst] in Hname.
    repeat (rewrite named_params_set_other by (intros ->; tauto)). done.
Qed.
End Start.

(** ** The whole flow *)

Section Flow.
Context `{Platform} (env : Env).

Lemma wp_received_state (parts : list value) (props : list (string * value)) st Q :
  Q (inr (if truthy (element 1 parts) then element 1 parts else lookup_prop "state" props)) st ->
  wp (if truthy (element 1 parts) then ret (element 1 parts) else Get (VObj props) "state")
    st Q.
Proof. unfold wp. by destruct (truthy _). Qed.

Lemma complete_success (st : State) (config : OAuthConfig) (authCode : string) (now : Z)
    (stored : string) (props : list (string * value))
    (tokenBody keyBody : string) (tokenProps keyProps : list (string * value)) :
  let parts := authCode_parts authCode in
  let state :=
    if truthy (element 1 parts) then element 1 parts else lookup_prop "state" props in
  let payload := tokenPayload (element 0 parts) config (lookup_prop "verifier" props) state in
  let row :=
    {| provider := "Anthropic";
       apikey := lookup_prop "raw_key" keyProps;
       google_Oauth :=
         VStr (JSON_stringify
                 (apiKey_metadata (lookup_prop "id" keyProps) (lookup_prop "name" keyProps)
                    (lookup_prop "created_at" keyProps)
                    (lookup_prop "partial_key_hint" keyProps))) |} in
  authCode <> "" ->
  resolved_config env st = Some config ->
  keyValue st !! oauth_data_key = Some stored ->
  stored <> "" ->
  JSON_parse stored = inr (VObj props) ->
  number_gt (number_sub (Num now) (ToNumber (lookup_prop "timestamp" props))) (Num 600000)
  = false ->
  fetch env (token_request config payload) = inr {| ok := true; body := tokenBody |} ->
  JSON_parse tokenBody = inr (VObj tokenProps) ->
  fetch env (apiKey_request config (lookup_prop "access_token" tokenProps))
  = inr {| ok := true; body := keyBody |} ->
  JSON_parse keyBody = inr (VObj keyProps) ->
  exists st',
    completeAnthropicOAuth env authCode now st
    = (CompleteSuccess (lookup_prop "raw_key" keyProps) (lookup_prop "name" keyProps), st')
    /\ connection st' = <["Anthropic" := row]> (connection st)
    /\ keyValue st' = delete oauth_data_key (keyValue st).
Proof.
  intros parts state payload row Hcode Hcfg Hs Hne Hparse Hfresh Htok Htokjson Hkey Hkeyjson.
  eexists. split.
  2: shelve.
  unfold completeAnthropicOAuth. rewrite (truthy_nonempty _ Hcode). cbn [negb].
  apply (wp_try_catch _ _ _ (fun p => p = _)).
  wp_run. rewrite (ensureOAuthConfig_resolved env _ _ Hcfg). cbn [fst snd].
  wp_run. cbn [keyValue_get gets fst snd set_oauthConfig keyValue]. rewrite Hs.
  destruct stored as [|c stored']; [done|]. rewrite Hparse.
  wp_run. rewrite Get_object. cbn [fst snd]. rewrite Hfresh.
  wp_run. rewrite Get_object. cbn [fst snd].
  apply wp_bind, wp_received_state.
  wp_run. cbn [do_fetch fst snd]. fold parts state payload. rewrite Htok. cbn [ok negb body].
  wp_run. cbn [Response_json lift body fst snd]. rewrite Htokjson.
  wp_run. rewrite Get_object. cbn [fst snd].
  wp_run. cbn [do_fetch fst snd]. rewrite Hkey. cbn [ok negb body].
  wp_run. cbn [Response_json lift body fst snd]. rewrite Hkeyjson.
  do 5 (wp_run; rewrite Get_object; cbn [fst snd]).
  reflexivity.
  Unshelve. split; reflexivity.
Qed.

(** C1. With a resolved configuration whose [authorizeUrl] parses,
    [startAnthropicOAuth] succeeds with an URL containing
    [code_challenge_method=S256]; if the stored attempt reads back, the
    code is not empty, at most 600000 ms have passed and the token and
    issuance endpoints answer with JSON objects, the latter with a
    truthy [raw_key], then [completeAnthropicOAuth] returns that key
    and the key's name, the credential store holds the key for provider
    Anthropic, the attempt is gone, and the status is authenticated. *)
Theorem happy_path (st : State) (config : OAuthConfig) (u : URL)
    (authCode : string) (now1 now2 : Z)
    (tokenBody keyBody : string) (tokenProps keyProps : list (string * value)) :
  let v := next_verifier env st in
  let s := next_state env st in
  let stored := JSON_stringify (oauthData_object v s now1) in
  let parts := authCode_parts authCode in
  let state := if truthy (element 1 parts) then element 1 parts else VStr s in
  let payload := tokenPayload (element 0 parts) config (VStr v) state in
  let raw_key := lookup_prop "raw_key" keyProps in
  let key_name := lookup_prop "name" keyProps in
  let row :=
    {| provider := "Anthropic";
       apikey := raw_key;
       google_Oauth :=
         VStr (JSON_stringify
                 (apiKey_metadata (lookup_prop "id" keyProps) key_name
                    (lookup_prop "created_at" keyProps)
                    (lookup_prop "partial_key_hint" keyProps))) |} in
  resolved_config env st = Some config ->
  URL_parse (authorizeUrl config) = inr u ->
  stored <> "" ->
  JSON_parse stored = inr (oauthData_object v s now1) ->
  authCode <> "" ->
  now2 - now1 <= 600000 ->
  fetch env (token_request config payload) = inr {| ok := true; body := tokenBody |} ->
  JSON_parse tokenBody = inr (VObj tokenProps) ->
  fetch env (apiKey_request config (lookup_prop "access_token" tokenProps))
  = inr {| ok := true; body := keyBody |} ->
  JSON_parse keyBody = inr (VObj keyProps) ->
  truthy raw_key = true ->
  exists authUrl st1 st2,
    startAnthropicOAuth env now1 st = (StartSuccess authUrl v s, st1)
    /\ contains authUrl "code_challenge_method=S256"
    /\ completeAnthropicOAuth env authCode now2 st1 = (CompleteSuccess raw_key key_name, st2)
    /\ connection st2 !! "Anthropic" = Some row
    /\ keyValue st2 !! oauth_data_key = None
    /\ authenticated (checkAnthropicAuthStatus st2).1 = true.
Proof.
  intros v s stored parts state payload raw_key key_name row
    Hcfg Hu Hne Hparse Hcode Hfresh Htok Htokjson Hkey Hkeyjson Htruthy.
  set (st1 := upsert_keyValue oauth_data_key stored
                (set_drawn (drawn st + 32 + 32) (set_oauthConfig (Some config) st))).
  destruct (complete_success st1 config authCode now2 stored
              [("verifier", VStr v); ("state", VStr s); ("timestamp", VNum now1)]
              tokenBody keyBody tokenProps keyProps) as (st2 & Hcomplete & Hconn & Hkv);
    try done.
  { apply lookup_insert_eq. }
  { cbn. apply Z.ltb_ge. lia. }
  exists (URL_toString (authorize_url config s (challenge_of v) u)), st1, st2.
  split; [by apply start_success|].
  split.
  { apply (URL_toString_contains _ "code_challenge_method" "S256").
    unfold authorize_url, authorize_params. cbn [fold_left fst snd].
    unfold searchParams_set at 1. cbn [searchParams]. apply params_set_In. }
  split; [exact Hcomplete|].
  split; [by rewrite Hconn, lookup_insert_eq|].
  split; [by rewrite Hkv, lookup_delete_eq|].
  rewrite checkAnthropicAuthStatus_eq. cbn [fst].
  rewrite Hconn, lookup_insert_eq. unfold status_of, row. cbn [apikey].
  unfold raw_key in Htruthy. by rewrite Htruthy.
Qed.
End Flow.

(** ** Status and logout *)

Section Credentials.
Context `{Platform}.

Lemma logoutAnthropicOAuth_eq (st : State) :
  logoutAnthropicOAuth st
  = (LogoutSuccess,
     match connection st !! "Anthropic" with
     | Some row => if is_oauth_generated row then upsert_connection cleared_row st else st
     | None => st
     end).
Proof.
  unfold logoutAnthropicOAuth, try_catch, bind, connection_getByProvider, gets.
  cbn [fst snd].
  destruct (connection st !! "Anthropic") as [row|]; [|done].
  unfold is_oauth_generated, parsed_metadata, total, try_catch, bind, lift.
  destruct (truthy (google_Oauth row)); [|by destruct st].
  destruct (JSON_parse (ToString (google_Oauth row))) as [e|metadata]; [by destruct st|].
  destruct metadata as [| |b|n|s|items|props]; cbn; try by destruct st.
  destruct (strict_eq_string (lookup_prop "type" props) "oauth_generated"); by destruct st.
Qed.

Lemma cleared_row_not_generated : is_oauth_generated cleared_row = false.
Proof. reflexivity. Qed.

(** C8. [logoutAnthropicOAuth] always succeeds.  On a row whose
    metadata marks it as generated by the flow it empties the secret and
    the metadata, keeps the row and every other row, and the status
    then reads not authenticated; on any other row, or without one, it
    changes nothing; a second logout changes nothing more. *)
Theorem logout_semantics (st : State) :
  let st' := (logoutAnthropicOAuth st).2 in
  (logoutAnthropicOAuth st).1 = LogoutSuccess
  /\ (forall row,
        connection st !! "Anthropic" = Some row ->
        is_oauth_generated row = true ->
        connection st' !! "Anthropic" = Some cleared_row
        /\ apikey cleared_row = VStr "" /\ google_Oauth cleared_row = VStr ""
        /\ (forall p, p <> "Anthropic" -> connection st' !! p = connection st !! p)
        /\ checkAnthropicAuthStatus st' = (NotAuthenticated, st'))
  /\ (forall row,
        connection st !! "Anthropic" = Some row ->
        is_oauth_generated row = false ->
        st' = st)
  /\ (connection st !! "Anthropic" = None -> st' = st)
  /\ (logoutAnthropicOAuth st').2 = st'.
Proof.
  intros st'. subst st'. rewrite !logoutAnthropicOAuth_eq. cbn [fst snd].
  split; [done|]. split; [|split; [|split]].
  - intros row -> ->. split; [apply lookup_insert_eq|]. split; [done|]. split; [done|].
    split.
    + intros p Hp. by apply lookup_insert_ne.
    + rewrite checkAnthropicAuthStatus_eq. cbn. by rewrite lookup_insert_eq.
  - by intros row -> ->.
  - by intros ->.
  - destruct (connection st !! "Anthropic") as [row|] eqn:Hrow; [|by rewrite Hrow].
    destruct (is_oauth_generated row) eqn:Hgen.
    + cbn. by rewrite lookup_insert_eq, cleared_row_not_generated.
    + by rewrite Hrow, Hgen.
Qed.

(** C9 (amended). [checkAnthropicAuthStatus] writes nothing.  It
    answers not authenticated when there is no Anthropic row or its
    secret is falsy, and otherwise a record computed from the stored
    metadata alone: replacing the secret by any other truthy one gives
    the same record, and no field equals the secret unless the
    metadata itself holds it as [key_name] or [partial_key_hint]. *)
Theorem status_reads_metadata (st : State) :
  checkAnthropicAuthStatus st = (status_of (connection st !! "Anthropic"), st)
  /\ (connection st !! "Anthropic" = None -> (checkAnthropicAuthStatus st).1 = NotAuthenticated)
  /\ (forall row,
        connection st !! "Anthropic" = Some row ->
        truthy (apikey row) = false ->
        (checkAnthropicAuthStatus st).1 = NotAuthenticated)
  /\ (forall row,
        connection st !! "Anthropic" = Some row ->
        truthy (apikey row) = true ->
        (checkAnthropicAuthStatus st).1
        = Authenticated
            (strict_eq_string (Get_optional (parsed_metadata row) "type") "oauth_generated")
            (Get_optional (parsed_metadata row) "key_name")
            (Get_optional (parsed_metadata row) "partial_key_hint"))
  /\ (forall row secret,
        connection st !! "Anthropic" = Some row ->
        truthy (apikey row) = true ->
        truthy secret = true ->
        (checkAnthropicAuthStatus
           (set_connection
              (<["Anthropic" := {| provider := provider row; apikey := secret;
                                   google_Oauth := google_Oauth row |}]> (connection st))
              st)).1
        = (checkAnthropicAuthStatus st).1)
  /\ (forall row secret,
        connection st !! "Anthropic" = Some row ->
        apikey row = VStr secret ->
        Get_optional (parsed_metadata row) "key_name" <> VStr secret ->
        Get_optional (parsed_metadata row) "partial_key_hint" <> VStr secret ->
        ~ In (VStr secret) (status_fields (checkAnthropicAuthStatus st).1)).
Proof.
  rewrite !checkAnthropicAuthStatus_eq. cbn [fst].
  split; [done|]. split; [by intros ->|].
  split; [intros row -> Hrow; cbn [status_of]; by rewrite Hrow|].
  split; [intros row -> Hrow; cbn [status_of]; by rewrite Hrow|]. split.
  - intros row secret -> Hrow Hsecret. rewrite checkAnthropicAuthStatus_eq. cbn [fst connection set_connection].
    rewrite lookup_insert_eq. unfold status_of, is_oauth_generated, parsed_metadata.
    cbn [apikey google_Oauth]. by rewrite Hrow, Hsecret.
  - intros row secret -> Hsecret Hname Hhint. unfold status_of.
    destruct (truthy (apikey row)); cbn; intuition congruence.
Qed.
End Credentials.

(** ** The Gemini login *)

(** C10. When the Gemini service reports an authenticated user,
    [startGeminiOAuthLogin] answers success with the message
    [Already authenticated] and no URL; [isAuthenticated] is the only
    method called, and neither a pending signal nor a timer is
    registered.  Conversely a call of [authWithWeb], a change of the map
    of signals or a new timer only happens when the service answered
    that the user is not authenticated. *)
Theorem gemini_already_authenticated (env : Env) (st : State) :
  (gemini_isAuthenticated env = inr true ->
   Gemini.startGeminiOAuthLogin env st
   = ({| Gemini.success := true; Gemini.authUrl := None;
         Gemini.message := Some "Already authenticated"; Gemini.error := None |},
      Gemini.called IsAuthenticated st)
   /\ gemini_calls (Gemini.startGeminiOAuthLogin env st).2
      = gemini_calls st ++ [IsAuthenticated]
   /\ authPromises (Gemini.startGeminiOAuthLogin env st).2 = authPromises st
   /\ timers (Gemini.startGeminiOAuthLogin env st).2 = timers st)
  /\ (In AuthWithWeb (skipn (length (gemini_calls st))
                        (gemini_calls (Gemini.startGeminiOAuthLogin env st).2))
      \/ authPromises (Gemini.startGeminiOAuthLogin env st).2 <> authPromises st
      \/ timers (Gemini.startGeminiOAuthLogin env st).2 <> timers st ->
      gemini_isAuthenticated env = inr false).
Proof.
  unfold Gemini.startGeminiOAuthLogin, try_catch, bind, Gemini.isAuthenticated.
  split.
  - intros ->. done.
  - destruct (gemini_isAuthenticated env) as [e|[|]]; cbn; [| |done].
    + rewrite skipn_app, skipn_all, Nat.sub_diag. cbn. intuition discriminate.
    + rewrite skipn_app, skipn_all, Nat.sub_diag. cbn. intuition discriminate.
Qed.

(** ** The scenario, run *)

Section Examples.
#[local] Existing Instance Node.platform.

(** The scenario of the specification: start, then complete with
    [code123] against the two mocked endpoints. *)
Lemma happy_path_scenario :
  exists authUrl st1 st2,
    startAnthropicOAuth Scenario.env 1000 Scenario.initial
    = (StartSuccess authUrl (next_verifier Scenario.env Scenario.initial)
         (next_state Scenario.env Scenario.initial), st1)
    /\ contains authUrl "code_challenge_method=S256"
    /\ completeAnthropicOAuth Scenario.env "code123" 2000 st1
       = (CompleteSuccess (VStr "sk-abc") (VStr "n"), st2)
    /\ connection st2 !! "Anthropic"
       = Some {| provider := "Anthropic";
                 apikey := VStr "sk-abc";
                 google_Oauth :=
                   VStr (JSON_stringify
                           (apiKey_metadata (VStr "1") (VStr "n") (VStr "2024-01-01")
                              (VStr "sk-...c"))) |}
    /\ keyValue st2 !! oauth_data_key = None
    /\ authenticated (checkAnthropicAuthStatus st2).1 = true.
Proof.
  apply (happy_path Scenario.env Scenario.initial Scenario.config
           (MkURL "https://claude.ai/oauth/authorize" [] None) "code123" 1000 2000
           (JSON_stringify Scenario.tokenData) (JSON_stringify Scenario.apiKeyData)
           [("access_token", VStr "tok"); ("expires_in", VNum 3600)]
           [("raw_key", VStr "sk-abc"); ("id", VStr "1"); ("name", VStr "n");
            ("created_at", VStr "2024-01-01"); ("partial_key_hint", VStr "sk-...c")]).
  all: try (vm_compute; reflexivity).
  all: try (vm_compute; discriminate).
Defined.

(** The completed flow has deleted the attempt that [start] stored. *)
Lemma complete_deletes_attempt_scenario :
  keyValue Scenario.started !! oauth_data_key = Some Scenario.stored_attempt
  /\ keyValue Scenario.completed
     = delete oauth_data_key (keyValue Scenario.started)
  /\ keyValue Scenario.completed !! oauth_data_key = None.
Proof.
  split; [vm_compute; reflexivity|].
  apply (complete_deletes_attempt Scenario.env "code123" 2000 Scenario.started
           Scenario.stored_attempt (VObj Scenario.attempt_props)).
  all: try (vm_compute; reflexivity).
  all: vm_compute; discriminate.
Defined.

(** C2 as stated fails: with an attempt stored, an empty code is refused
    before the session store is touched, and the attempt stays. *)
Lemma complete_empty_code_keeps_attempt :
  keyValue Scenario.started !! oauth_data_key = Some Scenario.stored_attempt
  /\ completeAnthropicOAuth Scenario.env "" 2000 Scenario.started
     = (CompleteFailure "Missing authorization code", Scenario.started)
  /\ keyValue (completeAnthropicOAuth Scenario.env "" 2000 Scenario.started).2
       !! oauth_data_key
     <> None.
Proof.
  split; [vm_compute; reflexivity|]. split; [reflexivity|].
  vm_compute. discriminate.
Qed.



(** Completing without a start. *)
Lemma complete_without_session_scenario :
  exists st',
    completeAnthropicOAuth Scenario.env "code123" 2000 Scenario.initial
    = (CompleteFailure
         "OAuth session not found. Please start the authentication process again.", st')
    /\ connection st' = connection Scenario.initial
    /\ keyValue st' = keyValue Scenario.initial
    /\ requests st' = requests Scenario.initial.
Proof.
  apply (complete_without_session Scenario.env "code123" 2000 Scenario.initial
           Scenario.config).
  all: try (vm_compute; reflexivity).
  all: try (vm_compute; discriminate).
Defined.

(** C4 as stated fails: with no attempt stored, an empty code is answered
    with the missing-code error, not with session-not-found. *)
Lemma complete_empty_code_without_session :
  keyValue Scenario.initial !! oauth_data_key = None
  /\ completeAnthropicOAuth Scenario.env "" 2000 Scenario.initial
     = (CompleteFailure "Missing authorization code", Scenario.initial)
  /\ CompleteFailure "Missing authorization code"
     <> CompleteFailure
          "OAuth session not found. Please start the authentication process again.".
Proof. split; [reflexivity|]. split; [reflexivity|discriminate]. Qed.

(** The example of the specification: [ABC#XYZ] sends code [ABC] and
    state [XYZ]. *)
Lemma complete_composite_code_scenario :
  exists r sent payload,
    requests (completeAnthropicOAuth Scenario.env "ABC#XYZ" 2000 Scenario.started).2
    = r :: sent
    /\ req_url r = "https://console.anthropic.com/v1/oauth/token"
    /\ req_method r = "POST"
    /\ JSON_parse (req_body r) = inr (VObj payload)
    /\ map fst payload
       = ["grant_type"; "code"; "redirect_uri"; "client_id"; "code_verifier"; "state"]
    /\ lookup_prop "code" payload = VStr "ABC"
    /\ lookup_prop "state" payload = VStr "XYZ"
    /\ lookup_prop "code_verifier" payload
       = VStr (next_verifier Scenario.env Scenario.initial).
Proof.
  pose proof (complete_composite_code Scenario.env "ABC#XYZ" 2000 Scenario.started
                Scenario.config Scenario.stored_attempt Scenario.attempt_props) as Hsends.
  cbv zeta in Hsends.
  destruct Hsends as (_ & _ & _ & r & sent & Hsent & Hurl & Hmethod & Hbody);
    [first [vm_compute; reflexivity | vm_compute; discriminate]..|].
  exists r, sent. eexists. split; [exact Hsent|]. split; [exact Hurl|].
  split; [exact Hmethod|]. rewrite Hbody.
  split; [vm_compute; reflexivity|]. repeat split; vm_compute; reflexivity.
Defined.

(** C5 as stated fails: for [A#B#C] the remainder after the first [#] is
    [B#C], but the request carries the state [B]. *)
Lemma complete_two_separators :
  after_first "#" "A#B#C" = "B#C"
  /\ exists r sent payload,
       requests (completeAnthropicOAuth Scenario.env "A#B#C" 2000 Scenario.started).2
       = r :: sent
       /\ req_url r = "https://console.anthropic.com/v1/oauth/token"
       /\ JSON_parse (req_body r) = inr (VObj payload)
       /\ lookup_prop "code" payload = VStr "A"
       /\ lookup_prop "state" payload = VStr "B"
       /\ lookup_prop "state" payload <> VStr "B#C".
Proof.
  split; [reflexivity|].
  eexists _, _, _. split; [vm_compute; reflexivity|].
  split; [vm_compute; reflexivity|]. split; [vm_compute; reflexivity|].
  split; [vm_compute; reflexivity|]. split; [vm_compute; reflexivity|].
  vm_compute. discriminate.
Qed.

(** The authorization URL of the scenario. *)
Lemma start_authorization_url_scenario :
  exists params,
    (startAnthropicOAuth Scenario.env 1000 Scenario.initial).1
    = StartSuccess
        (URL_toString (MkURL "https://claude.ai/oauth/authorize" params None))
        (next_verifier Scenario.env Scenario.initial)
        (next_state Scenario.env Scenario.initial)
    /\ (forall name val,
          In (name, val)
            (authorize_params Scenario.config (next_state Scenario.env Scenario.initial)
               (challenge_of (next_verifier Scenario.env Scenario.initial))) ->
          named name params = [(name, val)])
    /\ (forall name,
          ~ In name
              (map fst
                 (authorize_params Scenario.config
                    (next_state Scenario.env Scenario.initial)
                    (challenge_of (next_verifier Scenario.env Scenario.initial)))) ->
          named name params = named name []).
Proof.
  apply (start_authorization_url Scenario.env 1000 Scenario.initial Scenario.config
           (MkURL "https://claude.ai/oauth/authorize" [] None)).
  all: vm_compute; reflexivity.
Defined.

(** C6 as stated fails: the URL also carries [code=true], which is not
    among the enumerated parameters. *)
Lemma start_sets_code_parameter :
  exists authUrl v s st' u,
    startAnthropicOAuth Scenario.env 1000 Scenario.initial = (StartSuccess authUrl v s, st')
    /\ URL_parse authUrl = inr u
    /\ named "code" (searchParams u) = [("code", "true")]
    /\ ~ In "code" enumerated_names.
Proof.
  eexists _, _, _, _, _. split; [vm_compute; reflexivity|].
  split; [vm_compute; reflexivity|]. split; [vm_compute; reflexivity|].
  vm_compute. intuition discriminate.
Qed.

(** Logout after the completed flow clears the row; logout on a key the
    user entered changes nothing. *)
Lemma logout_semantics_scenario :
  (logoutAnthropicOAuth Scenario.completed).1 = LogoutSuccess
  /\ connection (logoutAnthropicOAuth Scenario.completed).2 !! "Anthropic" = Some cleared_row
  /\ checkAnthropicAuthStatus (logoutAnthropicOAuth Scenario.completed).2
     = (NotAuthenticated, (logoutAnthropicOAuth Scenario.completed).2)
  /\ (logoutAnthropicOAuth (Scenario.with_row (Scenario.manual_row "sk-manual" (VObj [])))).2
     = Scenario.with_row (Scenario.manual_row "sk-manual" (VObj [])).
Proof.
  destruct (logout_semantics Scenario.completed) as (Hok & Hflow & _).
  destruct (logout_semantics (Scenario.with_row (Scenario.manual_row "sk-manual" (VObj []))))
    as (_ & _ & Hmanual & _).
  split; [exact Hok|].
  destruct (Hflow {| provider := "Anthropic";
                     apikey := VStr "sk-abc";
                     google_Oauth :=
                       VStr (JSON_stringify
                               (apiKey_metadata (VStr "1") (VStr "n") (VStr "2024-01-01")
                                  (VStr "sk-...c"))) |})
    as (Hrow & _ & _ & _ & Hstatus); [vm_compute; reflexivity..|].
  split; [exact Hrow|]. split; [exact Hstatus|].
  apply (Hmanual (Scenario.manual_row "sk-manual" (VObj []))); vm_compute; reflexivity.
Defined.

(** The status after the completed flow. *)
Lemma status_reads_metadata_scenario :
  checkAnthropicAuthStatus Scenario.completed
  = (Authenticated true (VStr "n") (VStr "sk-...c"), Scenario.completed)
  /\ ~ In (VStr "sk-abc") (status_fields (checkAnthropicAuthStatus Scenario.completed).1).
Proof.
  destruct (status_reads_metadata Scenario.completed) as (Heq & _ & _ & _ & _ & Hsecret).
  split; [rewrite Heq; vm_compute; reflexivity|].
  apply (Hsecret {| provider := "Anthropic";
                    apikey := VStr "sk-abc";
                    google_Oauth :=
                      VStr (JSON_stringify
                              (apiKey_metadata (VStr "1") (VStr "n") (VStr "2024-01-01")
                                 (VStr "sk-...c"))) |} "sk-abc").
  all: try (vm_compute; reflexivity).
  all: vm_compute; discriminate.
Defined.

(** C9 as stated fails: when the stored metadata names the key by the
    secret itself, the [keyName] field of the status equals the secret. *)
Lemma status_returns_secret_from_metadata :
  let st := Scenario.with_row
              (Scenario.manual_row "sk-abc" (VObj [("key_name", VStr "sk-abc")])) in
  (apikey <$> connection st !! "Anthropic") = Some (VStr "sk-abc")
  /\ (checkAnthropicAuthStatus st).1 = Authenticated false (VStr "sk-abc") VUndefined
  /\ In (VStr "sk-abc") (status_fields (checkAnthropicAuthStatus st).1).
Proof.
  split; [vm_compute; reflexivity|]. split; [vm_compute; reflexivity|].
  vm_compute. auto.
Qed.

End Examples.

(** The Gemini login of a user who is already authenticated. *)
Lemma gemini_already_authenticated_scenario :
  Gemini.startGeminiOAuthLogin Scenario.env Scenario.initial
  = ({| Gemini.success := true; Gemini.authUrl := None;
        Gemini.message := Some "Already authenticated"; Gemini.error := None |},
     Gemini.called IsAuthenticated Scenario.initial)
  /\ gemini_calls (Gemini.startGeminiOAuthLogin Scenario.env Scenario.initial).2
     = [IsAuthenticated]
  /\ authPromises (Gemini.startGeminiOAuthLogin Scenario.env Scenario.initial).2 = ∅
  /\ timers (Gemini.startGeminiOAuthLogin Scenario.env Scenario.initial).2 = [].
Proof.
  destruct (gemini_already_authenticated Scenario.env Scenario.initial) as [Hauth _].
  apply Hauth. reflexivity.
Defined.

(** * Further properties *)

(** ** The configuration cache *)

Lemma ensureOAuthConfig_unresolved (env : Env) (st : State) :
  resolved_config env st = None ->
  exists e, getOAuthConfig env = inl e /\ ensureOAuthConfig env st = (inl e, st).
Proof.
  unfold resolved_config, ensureOAuthConfig, bind, gets, lift. cbn.
  destruct (oauthConfig st); [done|]. destruct (getOAuthConfig env) as [e|]; [|done].
  intros _. by exists e.
Qed.

(** X1. Once [ensureOAuthConfig] has returned a configuration it is cached:
    every later call returns the same configuration and changes nothing,
    whatever the loader would answer by then. *)
Theorem ensureOAuthConfig_caches (env env' : Env) (st st1 : State) (config : OAuthConfig) :
  ensureOAuthConfig env st = (inr config, st1) ->
  oauthConfig st1 = Some config
  /\ ensureOAuthConfig env' st1 = (inr config, st1).
Proof.
  intros Hrun.
  assert (oauthConfig st1 = Some config) as Hcached.
  { revert Hrun. unfold ensureOAuthConfig, bind, gets, lift, modify, ret. cbn.
    destruct (oauthConfig st) eqn:Hc; [by intros [= <- <-]|].
    destruct (getOAuthConfig env); [done|]. by intros [= <- <-]. }
  split; [done|].
  rewrite (ensureOAuthConfig_resolved env' st1 config).
  - by rewrite set_oauthConfig_cached.
  - unfold resolved_config. by rewrite Hcached.
Qed.

(** X2. A load that fails is not cached: the error is the loader's, the
    state is untouched, and a later call whose loader answers succeeds
    and caches that answer. *)
Theorem ensureOAuthConfig_failure_not_cached (env env' : Env) (st st1 : State)
    (e : exn) (configs : Configs) :
  ensureOAuthConfig env st = (inl e, st1) ->
  getOAuthConfig env' = inr configs ->
  st1 = st
  /\ getOAuthConfig env = inl e
  /\ ensureOAuthConfig env' st1
     = (inr (anthropic configs), set_oauthConfig (Some (anthropic configs)) st).
Proof.
  intros Hrun Hload.
  destruct (resolved_config env st) as [config|] eqn:Hres.
  { by rewrite (ensureOAuthConfig_resolved env st config Hres) in Hrun. }
  destruct (ensureOAuthConfig_unresolved env st Hres) as (e' & He' & Hthrow).
  rewrite Hthrow in Hrun. injection Hrun as <- <-.
  split; [done|]. split; [done|].
  apply ensureOAuthConfig_resolved. revert Hres. unfold resolved_config.
  destruct (oauthConfig st); [done|]. by rewrite Hload.
Qed.

(** ** Starting a flow, on every path *)

Section StartOutcome.
Context `{Platform} (env : Env).

Lemma start_unresolved (now : Z) (st : State) :
  resolved_config env st = None ->
  startAnthropicOAuth env now st = (StartFailure "Failed to start OAuth flow", st).
Proof.
  intros Hres. destruct (ensureOAuthConfig_unresolved env st Hres) as (e & _ & Hthrow).
  unfold startAnthropicOAuth. apply (wp_try_catch _ _ _ (fun p => p = _)).
  wp_run. by rewrite Hthrow.
Qed.

Lemma start_bad_url (now : Z) (st : State) (config : OAuthConfig) (e : exn) :
  resolved_config env st = Some config ->
  URL_parse (authorizeUrl config) = inl e ->
  startAnthropicOAuth env now st
  = (StartFailure "Failed to start OAuth flow",
     set_drawn (drawn st + 32 + 32) (set_oauthConfig (Some config) st)).
Proof.
  intros Hcfg Hu. unfold startAnthropicOAuth.
  apply (wp_try_catch _ _ _ (fun p => p = _)).
  wp_run. rewrite (ensureOAuthConfig_resolved env _ _ Hcfg). cbn [fst snd].
  wp_run. rewrite generatePKCE_eq. cbn [fst snd].
  wp_run. rewrite generateState_eq. cbn [fst snd].
  wp_run. cbn [lift fst snd]. by rewrite Hu.
Qed.

Lemma start_cases (now : Z) (st : State) :
  (resolved_config env st = None
   /\ startAnthropicOAuth env now st = (StartFailure "Failed to start OAuth flow", st))
  \/ (exists config e,
        resolved_config env st = Some config
        /\ URL_parse (authorizeUrl config) = inl e
        /\ startAnthropicOAuth env now st
           = (StartFailure "Failed to start OAuth flow",
              set_drawn (drawn st + 32 + 32) (set_oauthConfig (Some config) st)))
  \/ (exists config u,
        resolved_config env st = Some config
        /\ URL_parse (authorizeUrl config) = inr u
        /\ startAnthropicOAuth env now st
           = (StartSuccess
                (URL_toString
                   (authorize_url config (next_state env st)
                      (challenge_of (next_verifier env st)) u))
                (next_verifier env st) (next_state env st),
              upsert_keyValue oauth_data_key
                (JSON_stringify
                   (oauthData_object (next_verifier env st) (next_state env st) now))
                (set_drawn (drawn st + 32 + 32) (set_oauthConfig (Some config) st)))).
Proof.
  destruct (resolved_config env st) as [config|] eqn:Hcfg.
  - destruct (URL_parse (authorizeUrl config)) as [e|u] eqn:Hu.
    + right. left. exists config, e. eauto using start_bad_url.
    + right. right. exists config, u. split; [done|]. split; [done|].
      by apply start_success.
  - left. eauto using start_unresolved.
Qed.

(** X3. However [startAnthropicOAuth] fails, the caller is told the one
    fixed message, and neither the session store, nor the credential
    store, nor the network has been touched. *)
Theorem start_failure_frame (now : Z) (st st' : State) (error : string) :
  startAnthropicOAuth env now st = (StartFailure error, st') ->
  error = "Failed to start OAuth flow"
  /\ keyValue st' = keyValue st
  /\ connection st' = connection st
  /\ requests st' = requests st.
Proof.
  destruct (start_cases now st)
    as [[_ ->]|[(config & e & _ & _ & ->)|(config & u & _ & _ & ->)]];
    [by intros [= <- <-]..|done].
Qed.

(** X4. A successful [startAnthropicOAuth] has stored exactly one thing:
    under the session key, the JSON text of the verifier and the state it
    returns together with the time of the call.  The verifier and the
    state encode two successive draws of 32 random bytes, the URL is
    built from the cached configuration, and the credential store and the
    network are untouched. *)
Theorem start_success_stores_attempt (now : Z) (st st' : State)
    (authUrl v s : string) :
  startAnthropicOAuth env now st = (StartSuccess authUrl v s, st') ->
  v = next_verifier env st
  /\ s = next_state env st
  /\ keyValue st'
     = <[oauth_data_key := JSON_stringify (oauthData_object v s now)]> (keyValue st)
  /\ drawn st' = (drawn st + 64)%nat
  /\ connection st' = connection st
  /\ requests st' = requests st
  /\ exists config u,
       oauthConfig st' = Some config
       /\ resolved_config env st = Some config
       /\ URL_parse (authorizeUrl config) = inr u
       /\ authUrl = URL_toString (authorize_url config s (challenge_of v) u).
Proof.
  destruct (start_cases now st)
    as [[_ ->]|[(config & e & _ & _ & ->)|(config & u & Hcfg & Hu & ->)]]; [done..|].
  intros [= <- <- <- <-]. repeat split; try done.
  - cbn. lia.
  - by exists config, u.
Qed.

End StartOutcome.

(** X5. Last start wins: after two successful starts the session store
    holds the second attempt only and is otherwise as before the first;
    the second verifier and state come from the next draws. *)
Theorem start_twice_last_wins `{Platform} (env1 env2 : Env) (now1 now2 : Z)
    (st st1 st2 : State) (url1 v1 s1 url2 v2 s2 : string) :
  startAnthropicOAuth env1 now1 st = (StartSuccess url1 v1 s1, st1) ->
  startAnthropicOAuth env2 now2 st1 = (StartSuccess url2 v2 s2, st2) ->
  keyValue st2
  = <[oauth_data_key := JSON_stringify (oauthData_object v2 s2 now2)]> (keyValue st)
  /\ keyValue st2 !! oauth_data_key = Some (JSON_stringify (oauthData_object v2 s2 now2))
  /\ v2 = Base64url.encode (map (entropy env2) (seq (drawn st + 64) 32))
  /\ s2 = Base64url.encode (map (entropy env2) (seq (drawn st + 96) 32)).
Proof.
  intros H1 H2.
  destruct (start_cases env1 now1 st)
    as [[_ E1]|[(c1 & e1 & _ & _ & E1)|(c1 & u1 & _ & _ & E1)]];
    rewrite E1 in H1; [done..|]. injection H1 as _ _ _ <-.
  destruct (start_cases env2 now2
              (upsert_keyValue oauth_data_key
                 (JSON_stringify
                    (oauthData_object (next_verifier env1 st) (next_state env1 st) now1))
                 (set_drawn (drawn st + 32 + 32) (set_oauthConfig (Some c1) st))))
    as [[_ E2]|[(c2 & e2 & _ & _ & E2)|(c2 & u2 & _ & _ & E2)]];
    rewrite E2 in H2; [done..|]. injection H2 as _ <- <- <-.
  cbn [keyValue upsert_keyValue set_keyValue set_drawn set_oauthConfig].
  rewrite insert_insert_eq. split; [done|]. split; [apply lookup_insert_eq|].
  unfold next_verifier, next_state. cbn [drawn upsert_keyValue set_keyValue set_drawn].
  split; do 3 f_equal; lia.
Qed.

Lemma alphabet_kept :
  Forall (fun c => (Z.of_N (N_of_ascii c) =? 32) = false
                   /\ urlencoded_keep (Z.of_N (N_of_ascii c)) = true)
    Base64url.alphabet.
Proof.
  unfold Base64url.alphabet. cbn [String.list_ascii_of_string].
  repeat (apply List.Forall_cons; [split; reflexivity|]). apply List.Forall_nil.
Qed.

Lemma urlencode_url_safe (s : string) : url_safe s -> urlencode s = s.
Proof.
  unfold url_safe. induction s as [|c s IH]; [done|].
  cbn [String.list_ascii_of_string urlencode]. intros Hs.
  apply Forall_cons in Hs as [Hc Hs].
  pose proof alphabet_kept as Hkept. rewrite Forall_forall in Hkept.
  destruct (Hkept c) as [-> ->]; [by apply list_elem_of_In|]. by rewrite IH.
Qed.

Lemma params_set_In_other (name val n v : string) (l : list (string * string)) :
  n <> name -> In (n, v) l -> In (n, v) (params_set name val l).
Proof.
  intros Hne. induction l as [|[k x] l IH]; [done|]. cbn [params_set].
  destruct (String.eqb_spec k name) as [->|Hk].
  - intros [[= -> ->]|Hin]; [done|]. right.
    apply filter_In. split; [done|]. cbn. by destruct (String.eqb_spec n name).
  - intros [Heq|Hin]; [by left|right; auto].
Qed.

(** X6. The state and the code challenge appear in the authorization URL
    as they are returned: being URL-safe base64 they need no escaping. *)
Theorem start_url_carries_state `{Platform} (env : Env) (now : Z) (st st' : State)
    (authUrl v s : string) :
  startAnthropicOAuth env now st = (StartSuccess authUrl v s, st') ->
  contains authUrl ("state=" +:+ s)
  /\ contains authUrl ("code_challenge=" +:+ challenge_of v).
Proof.
  intros Hrun.
  destruct (start_cases env now st)
    as [[_ E]|[(c & e & _ & _ & E)|(c & u & _ & _ & E)]];
    rewrite E in Hrun; [done..|]. injection Hrun as <- <- <- _.
  unfold authorize_url, authorize_params. cbn [fold_left fst snd].
  unfold searchParams_set at 1.
  set (url := MkURL _ _ _).
  assert (forall n x, url_safe x -> In (n, x) (searchParams url) ->
                      urlencode n = n -> contains (URL_toString url) (n +:+ "=" +:+ x))
    as Hcarried.
  { intros n x Hx Hin Hn. pose proof (URL_toString_contains url n x Hin) as Hc.
    by rewrite (urlencode_url_safe x Hx), Hn in Hc. }
  split;
    [apply (Hcarried "state")|apply (Hcarried "code_challenge")];
    try apply base64url_url_safe; try reflexivity;
    unfold url, searchParams_set; cbn [searchParams].
  - do 2 (apply params_set_In_other; [discriminate|]). apply params_set_In.
  - apply params_set_In_other; [discriminate|]. apply params_set_In.
Qed.

(** X7. [generateState] draws 32 random bytes and returns their URL-safe
    base64 encoding: 43 digits of the URL-safe alphabet, no padding. *)
Theorem generateState_shape (env : Env) (st : State) :
  let bytes := map (entropy env) (seq (drawn st) 32) in
  generateState env st = (inr (Base64url.encode bytes), set_drawn (drawn st + 32) st)
  /\ String.length (Base64url.encode bytes) = 43%nat
  /\ url_safe (Base64url.encode bytes)
  /\ includes "=" (Base64url.encode bytes) = false.
Proof.
  intros bytes. split; [reflexivity|].
  assert (length bytes = 32%nat) as Hb
    by (unfold bytes; rewrite length_map, length_seq; reflexivity).
  split; [rewrite base64url_length, Hb; reflexivity|].
  split; [apply base64url_url_safe|apply url_safe_no_padding, base64url_url_safe].
Qed.

(** ** Completing a flow, on every path *)

Lemma maintains_unchanged {A} (I : State -> Prop) (m : M A) :
  (forall st, (m st).2 = st) -> maintains I m.
Proof. intros Hm st Hst. by rewrite Hm. Qed.

Lemma maintains_if {A} (I : State -> Prop) (b : bool) (m1 m2 : M A) :
  maintains I m1 -> maintains I m2 -> maintains I (if b then m1 else m2).
Proof. by destruct b. Qed.

Lemma maintains_ensure `{Platform} (env : Env) (I : State -> Prop) :
  (forall c st, I st -> I (set_oauthConfig c st)) -> maintains I (ensureOAuthConfig env).
Proof.
  intros HI st Hst. destruct (ensureOAuthConfig_state env st) as [-> | [c ->]]; auto.
Qed.

Lemma maintains_Get `{Platform} (I : State -> Prop) v k : maintains I (Get v k).
Proof. apply maintains_unchanged. apply Get_state. Qed.

Lemma maintains_json `{Platform} (I : State -> Prop) r : maintains I (Response_json r).
Proof. by apply maintains_unchanged. Qed.

Lemma maintains_fetch (env : Env) (I : State -> Prop) req :
  (forall l st, I st -> I (set_requests l st)) -> maintains I (do_fetch env req).
Proof. intros HI st Hst. by apply HI. Qed.

(** One step of an action that keeps the invariant [I], by a return or
    by a throw. *)
Ltac wp_stage I :=
  apply wp_bind, (wp_maintains I);
  [ repeat first [ apply maintains_if | apply maintains_Get | apply maintains_json
                 | apply maintains_ensure; intros ? ? ?; assumption
                 | apply maintains_fetch; intros ? ? ?; assumption
                 | apply maintains_unchanged; reflexivity ]
  | assumption
  | let r := fresh "r" in
    let st := fresh "st" in
    let Hst := fresh "Hst" in
    intros [r|r] st Hst ].

Ltac failed :=
  cbn [fst snd];
  match goal with
  | Hret : _, Hcatch : _ |- _ =>
      first [ eapply Hret; [|eassumption]; lia | eapply Hcatch; [|eassumption]; lia ]
  end.

Section CompleteOutcome.
Context `{Platform} (env : Env).

Lemma complete_outcome (authCode : string) (now : Z) (st : State) :
  let r := completeAnthropicOAuth env authCode now st in
  match r.1 with
  | CompleteFailure _ =>
      connection r.2 = connection st
      /\ (keyValue r.2 = keyValue st \/ keyValue r.2 = delete oauth_data_key (keyValue st))
      /\ exists sent, requests r.2 = requests st ++ sent /\ (length sent <= 2)%nat
  | CompleteSuccess raw_key key_name =>
      authCode <> ""
      /\ (exists key_id created_at partial_key_hint,
            connection r.2
            = <["Anthropic" := flow_row raw_key key_id key_name created_at partial_key_hint]>
                (connection st))
      /\ keyValue r.2 = delete oauth_data_key (keyValue st)
      /\ exists req1 req2, requests r.2 = requests st ++ [req1; req2]
  end.
Proof.
  set (stage := fun (n : nat) (st' : State) =>
                  keyValue st' = keyValue st /\ connection st' = connection st
                  /\ exists sent, requests st' = requests st ++ sent /\ length sent = n).
  set (P := fun p : CompleteResult * State =>
              match p.1 with
              | CompleteFailure _ =>
                  connection p.2 = connection st
                  /\ (keyValue p.2 = keyValue st
                      \/ keyValue p.2 = delete oauth_data_key (keyValue st))
                  /\ exists sent, requests p.2 = requests st ++ sent /\ (length sent <= 2)%nat
              | CompleteSuccess raw_key key_name =>
                  authCode <> ""
                  /\ (exists key_id created_at partial_key_hint,
                        connection p.2
                        = <["Anthropic" :=
                              flow_row raw_key key_id key_name created_at partial_key_hint]>
                            (connection st))
                  /\ keyValue p.2 = delete oauth_data_key (keyValue st)
                  /\ exists req1 req2, requests p.2 = requests st ++ [req1; req2]
              end).
  assert (forall n e st', (n <= 2)%nat -> stage n st' -> P (CompleteFailure e, st')) as Hret.
  { intros n e st' Hn (Hkv & Hconn & sent & Hsent & Hlen). unfold P. cbn.
    split; [done|]. split; [by left|]. exists sent. split; [done|lia]. }
  assert (forall n e st', (n <= 2)%nat -> stage n st' ->
            P (CompleteFailure e, delete_keyValue oauth_data_key st')) as Hcatch.
  { intros n e st' Hn (Hkv & Hconn & sent & Hsent & Hlen). unfold P. cbn.
    split; [done|]. split; [right; by rewrite Hkv|]. exists sent. split; [done|lia]. }
  assert (stage 0%nat st) as H0.
  { split; [done|]. split; [done|]. exists []. by rewrite app_nil_r. }
  assert (forall n req st', stage n st' ->
            stage (S n) (set_requests (requests st' ++ [req]) st')) as Hsend.
  { intros n req st' (Hkv & Hconn & sent & Hsent & Hlen).
    split; [done|]. split; [done|]. exists (sent ++ [req]). cbn.
    rewrite Hsent, <- app_assoc, length_app. split; [done|]. cbn. lia. }
  intros r. change (P r). subst r.
  unfold completeAnthropicOAuth.
  destruct (truthy (VStr authCode)) eqn:Hcode; cbn [negb]; [|failed].
  assert (authCode <> "") as Hne by (by intros ->).
  apply wp_try_catch.
  wp_stage (stage 0%nat); [failed|].
  wp_run. cbn [keyValue_get gets fst snd].
  destruct (keyValue st0 !! oauth_data_key) as [[|c stored]|]; [failed| |failed].
  destruct (JSON_parse (String c stored)) as [e|oauthData]; [failed|].
  wp_stage (stage 0%nat); [failed|].
  destruct (number_gt _ _).
  { wp_run. cbn [keyValue_delete modify fst snd]. failed. }
  wp_stage (stage 0%nat); [failed|].
  wp_stage (stage 0%nat); [failed|].
  wp_run. cbn [do_fetch fst snd].
  match goal with |- context [set_requests (requests ?s ++ [?q]) ?s] =>
    pose proof (Hsend 0%nat q s ltac:(assumption)) as H1;
    generalize dependent (set_requests (requests s ++ [q]) s) end.
  intros st4 H1.
  destruct (fetch env _) as [e|tokenResponse]; [failed|].
  destruct (negb (ok tokenResponse)); [failed|].
  wp_stage (stage 1%nat); [failed|].
  wp_stage (stage 1%nat); [failed|].
  wp_run. cbn [do_fetch fst snd].
  match goal with |- context [set_requests (requests ?s ++ [?q]) ?s] =>
    pose proof (Hsend 1%nat q s ltac:(assumption)) as H2;
    generalize dependent (set_requests (requests s ++ [q]) s) end.
  intros st7 H2.
  destruct (fetch env _) as [e|apiKeyResponse]; [failed|].
  destruct (negb (ok apiKeyResponse)); [failed|].
  do 6 (wp_stage (stage 2%nat); [failed|]).
  wp_run. cbn [connection_upsert modify fst snd].
  wp_run. cbn [keyValue_delete modify fst snd].
  match goal with Hst : stage 2%nat ?s |- _ =>
    destruct Hst as (Hkv & Hconn & sent & Hsent & Hlen) end.
  unfold wp, P. cbn. split; [done|].
  split; [eexists _, _, _; unfold flow_row; by rewrite Hconn|].
  split; [by rewrite Hkv|].
  destruct sent as [|req1 [|req2 [|]]]; try done. by exists req1, req2.
Qed.

(** X8. A failed [completeAnthropicOAuth], whatever the failure, leaves
    the credential store as it was; it has sent at most two requests, and
    the session store is either untouched or has lost the attempt only. *)
Theorem complete_failure_keeps_credentials (authCode : string) (now : Z) (st st' : State)
    (error : string) :
  completeAnthropicOAuth env authCode now st = (CompleteFailure error, st') ->
  connection st' = connection st
  /\ (keyValue st' = keyValue st \/ keyValue st' = delete oauth_data_key (keyValue st))
  /\ exists sent, requests st' = requests st ++ sent /\ (length sent <= 2)%nat.
Proof.
  intros Hrun. pose proof (complete_outcome authCode now st) as Hout.
  by rewrite Hrun in Hout.
Qed.

(** X9. When [completeAnthropicOAuth] reports success, the code was not
    empty, exactly two requests were sent, the attempt is gone from the
    session store, and the Anthropic row now holds the returned key with
    metadata naming the returned key name; every other row is as before. *)
Theorem complete_success_effects (authCode : string) (now : Z) (st st' : State)
    (apiKey keyName : value) :
  completeAnthropicOAuth env authCode now st = (CompleteSuccess apiKey keyName, st') ->
  authCode <> ""
  /\ (exists key_id created_at partial_key_hint,
        connection st'
        = <["Anthropic" := flow_row apiKey key_id keyName created_at partial_key_hint]>
            (connection st))
  /\ keyValue st' = delete oauth_data_key (keyValue st)
  /\ exists req1 req2, requests st' = requests st ++ [req1; req2].
Proof.
  intros Hrun. pose proof (complete_outcome authCode now st) as Hout.
  by rewrite Hrun in Hout.
Qed.

End CompleteOutcome.

(** ** Completing a flow: the failures after the session checks *)

Lemma complete_no_session `{Platform} (env : Env) (authCode : string) (now : Z)
    (st : State) (config : OAuthConfig) :
  authCode <> "" ->
  resolved_config env st = Some config ->
  keyValue st !! oauth_data_key = None ->
  completeAnthropicOAuth env authCode now st
  = (CompleteFailure
       "OAuth session not found. Please start the authentication process again.",
     set_oauthConfig (Some config) st).
Proof.
  intros Hc Hcfg Hs.
  unfold completeAnthropicOAuth. rewrite (truthy_nonempty _ Hc). cbn [negb].
  apply (wp_try_catch _ _ _ (fun p => p = _)).
  wp_run. rewrite (ensureOAuthConfig_resolved env _ _ Hcfg). cbn [fst snd].
  wp_run. cbn. by rewrite Hs.
Qed.

(** The properties of this section share four conditions on the call
    [completeAnthropicOAuth env authCode now st]: the code is not empty,
    the provider configuration resolves (it is cached in [st], or the
    loader of [env] answers), and the session store holds a non-empty
    text under the session key.  Each property below names them as its
    standing conditions. *)
Section CompleteFailures.
Context `{Platform} (env : Env).
Context (authCode : string) (now : Z) (st : State) (config : OAuthConfig)
  (stored : string).
Hypothesis Hcode : authCode <> "".
Hypothesis Hconfig : resolved_config env st = Some config.
Hypothesis Hstored : keyValue st !! oauth_data_key = Some stored.
Hypothesis Hnonempty : stored <> "".

(** Run [completeAnthropicOAuth] up to the parsing of the stored text. *)
Ltac to_parse :=
  unfold completeAnthropicOAuth; rewrite (truthy_nonempty _ Hcode); cbn [negb];
  apply wp_try_catch;
  wp_run; rewrite (ensureOAuthConfig_resolved env _ _ Hconfig); cbn [fst snd];
  wp_run; cbn [keyValue_get gets fst snd set_oauthConfig keyValue]; rewrite Hstored;
  destruct stored as [|c stored']; [done|].

(** X16. Under the standing conditions (a non-empty code, a provider
    configuration that resolves, a non-empty stored text): stored session
    data that parses to [null] makes the read of its timestamp throw.
    The call fails with that error's message (the default text if it is
    empty), the stored data is deleted, and neither a request is sent nor
    the credential store touched. *)
Theorem complete_null_session :
  JSON_parse stored = inr VNull ->
  exists st',
    completeAnthropicOAuth env authCode now st
    = (CompleteFailure
         (message_or (Exn (TypeError_message VNull "timestamp"))
            "Failed to complete OAuth flow"), st')
    /\ keyValue st' = delete oauth_data_key (keyValue st)
    /\ requests st' = requests st
    /\ connection st' = connection st.
Proof.
  intros Hparse. eexists. split; [|shelve].
  pattern (completeAnthropicOAuth env authCode now st).
  to_parse. rewrite Hparse. wp_run. cbn. reflexivity.
  Unshelve. done.
Qed.

Section Unexpired.
Context (props : list (string * value)).
Hypothesis Hparse : JSON_parse stored = inr (VObj props).
Hypothesis Hfresh :
  number_gt (number_sub (Num now) (ToNumber (lookup_prop "timestamp" props))) (Num 600000)
  = false.

(** Run on to the first [fetch]. *)
Ltac to_fetch :=
  to_parse; rewrite Hparse;
  wp_run; rewrite Get_object; cbn [fst snd]; rewrite Hfresh;
  wp_run; rewrite Get_object; cbn [fst snd];
  apply wp_bind, wp_received_state;
  wp_run; cbn [do_fetch fst snd];
  fold (received_state authCode props); fold (first_request config authCode props).

(** X10. If the token endpoint answers with a status that is not ok, the
    call fails with [Token exchange failed: ] followed by the response
    body.  That request is the only one sent, the attempt is deleted and
    the credential store is untouched. *)
Theorem complete_token_exchange_failed (answer : string) :
  fetch env (first_request config authCode props) = inr {| ok := false; body := answer |} ->
  exists st',
    completeAnthropicOAuth env authCode now st
    = (CompleteFailure ("Token exchange failed: " +:+ answer), st')
    /\ requests st' = requests st ++ [first_request config authCode props]
    /\ keyValue st' = delete oauth_data_key (keyValue st)
    /\ connection st' = connection st.
Proof.
  intros Hfetch. eexists. split; [|shelve].
  pattern (completeAnthropicOAuth env authCode now st).
  to_fetch. rewrite Hfetch. cbn. reflexivity.
  Unshelve. done.
Qed.

(** X12. If the token request itself throws, the call fails with the
    thrown error's message, or with [Failed to complete OAuth flow] when
    that message is empty; the attempt is deleted all the same. *)
Theorem complete_network_error (e : exn) :
  fetch env (first_request config authCode props) = inl e ->
  exists st',
    completeAnthropicOAuth env authCode now st
    = (CompleteFailure
         (if String.eqb (message e) "" then "Failed to complete OAuth flow" else message e),
       st')
    /\ requests st' = requests st ++ [first_request config authCode props]
    /\ keyValue st' = delete oauth_data_key (keyValue st)
    /\ connection st' = connection st.
Proof.
  intros Hfetch. eexists. split; [|shelve].
  pattern (completeAnthropicOAuth env authCode now st).
  to_fetch. rewrite Hfetch. cbn [fst snd]. unfold message_or, truthy.
  destruct (String.eqb (message e) ""); reflexivity.
  Unshelve. done.
Qed.

(** X11. Under the standing conditions and with a stored attempt that
    parses to an object and is not expired: if the token exchange
    succeeds with a JSON object whose [access_token] is the string
    [token], but the issuance endpoint answers the request the call
    sends it with a status that is not ok, the call fails with
    [API key creation failed: ] followed by the response body.  Two
    requests were sent.  The second is a POST to the key URL with the
    headers [Content-Type: application/json] and
    [Authorization: Bearer token], in that order, and the JSON encoding
    of the empty object as body.  The attempt is deleted and no
    credential is stored. *)
Theorem complete_issuance_failed (tokenBody answer : string)
    (tokenProps : list (string * value)) (token : string) :
  fetch env (first_request config authCode props)
  = inr {| ok := true; body := tokenBody |} ->
  JSON_parse tokenBody = inr (VObj tokenProps) ->
  lookup_prop "access_token" tokenProps = VStr token ->
  fetch env (apiKey_request config (VStr token))
  = inr {| ok := false; body := answer |} ->
  exists st' r2,
    completeAnthropicOAuth env authCode now st
    = (CompleteFailure ("API key creation failed: " +:+ answer), st')
    /\ requests st' = (requests st ++ [first_request config authCode props]) ++ [r2]
    /\ req_url r2 = apiKeyUrl config
    /\ req_method r2 = "POST"
    /\ req_headers r2
       = [("Content-Type", "application/json"); ("Authorization", "Bearer " +:+ token)]
    /\ authorization r2 = Some ("Bearer " +:+ token)
    /\ req_body r2 = JSON_stringify (VObj [])
    /\ keyValue st' = delete oauth_data_key (keyValue st)
    /\ connection st' = connection st.
Proof.
  intros Htoken Hjson Haccess Hkey.
  eexists _, (apiKey_request config (VStr token)). split; [|shelve].
  pattern (completeAnthropicOAuth env authCode now st).
  to_fetch. rewrite Htoken. cbn [ok negb body fst snd].
  wp_run. cbn [Response_json lift body fst snd]. rewrite Hjson.
  wp_run. rewrite Get_object, Haccess. cbn [fst snd].
  wp_run. cbn [do_fetch fst snd]. rewrite Hkey. cbn. reflexivity.
  Unshelve. by repeat split.
Qed.

Lemma complete_sends_first_request :
  exists sent,
    requests (completeAnthropicOAuth env authCode now st).2
    = requests st ++ first_request config authCode props :: sent.
Proof.
  pattern (completeAnthropicOAuth env authCode now st).
  to_fetch.
  set (req := first_request _ _ _).
  set (st1 := set_requests _ _).
  assert (sent_after (requests st ++ [req]) st1) as Hst1
    by (exists []; by rewrite app_nil_r).
  assert (forall st',
            sent_after (requests st ++ [req]) st' ->
            exists sent, requests st' = requests st ++ req :: sent) as Hret.
  { intros st' [sent Hsent]. exists sent. by rewrite Hsent, <- app_assoc. }
  clearbody st1.
  assert (forall c st0, sent_after (requests st ++ [req]) st0 ->
            sent_after (requests st ++ [req]) (set_oauthConfig c st0)) as Hcfg by done.
  destruct (fetch env req) as [e|tokenResponse]; [exact (Hret _ Hst1)|]. cbn [fst snd].
  destruct (negb (ok tokenResponse)); [exact (Hret _ Hst1)|].
  do 2 (wp_stage (sent_after (requests st ++ [req])); [apply Hret; assumption|]).
  apply wp_bind, (wp_maintains (sent_after (requests st ++ [req])));
    [apply maintains_extends, extends_trace_fetch|assumption|].
  intros [e|apiKeyResponse] st4 Hst4; [apply Hret; assumption|].
  destruct (negb (ok _)); [apply Hret; assumption|].
  do 6 (wp_stage (sent_after (requests st ++ [req])); [apply Hret; assumption|]).
  wp_run. wp_run. apply Hret. cbn. assumption.
Qed.

End Unexpired.

(** X13. Under the standing conditions (a non-empty code, a provider
    configuration that resolves, a non-empty stored text), with a stored
    attempt that parses to an object whose timestamp is at most
    600000 ms old (the bound included): a code without [#] makes the
    first request of the call the token exchange of section 4.2, a POST
    to the token URL whose JSON body carries the whole code as [code],
    the stored verifier as [code_verifier] and the stored state as
    [state]. *)
Theorem complete_plain_code (props : list (string * value)) (createdAt : Z) :
  includes "#" authCode = false ->
  JSON_parse stored = inr (VObj props) ->
  lookup_prop "timestamp" props = VNum createdAt ->
  now - createdAt <= 600000 ->
  exists r sent,
    requests (completeAnthropicOAuth env authCode now st).2 = requests st ++ r :: sent
    /\ is_token_exchange config (VStr authCode) (lookup_prop "verifier" props)
         (lookup_prop "state" props) r.
Proof.
  intros Hplain Hparse Htime Hfresh.
  destruct (complete_sends_first_request props Hparse) as [sent Hsent].
  { rewrite Htime. cbn. apply Z.ltb_ge. lia. }
  eexists _, sent. split; [exact Hsent|].
  unfold first_request, received_state, authCode_parts. rewrite Hplain.
  apply token_request_is_exchange.
Qed.

(** X14. Under the standing conditions (a non-empty code, a provider
    configuration that resolves, a non-empty stored text): a stored
    attempt that parses to an object without a [timestamp] never expires.
    The comparison with not-a-number is false, so the token request, a
    POST to the token URL, is sent however late the code arrives. *)
Theorem complete_missing_timestamp (props : list (string * value)) :
  JSON_parse stored = inr (VObj props) ->
  lookup_prop "timestamp" props = VUndefined ->
  exists sent,
    requests (completeAnthropicOAuth env authCode now st).2
    = requests st ++ first_request config authCode props :: sent
    /\ req_url (first_request config authCode props) = tokenUrl config
    /\ req_method (first_request config authCode props) = "POST".
Proof.
  intros Hparse Htime.
  destruct (complete_sends_first_request props Hparse) as [sent Hsent];
    [by rewrite Htime|].
  by exists sent.
Qed.

(** X15. Codes are single-use.  Let [completeAnthropicOAuth] run under
    the standing conditions (a non-empty code, a provider configuration
    that resolves, a non-empty stored text) on a stored attempt that
    parses.  Whatever it returned, the configuration is then cached and
    the attempt gone: a second call with any non-empty code, in any
    environment, fails with the session-not-found error and changes
    nothing. *)
Theorem complete_single_use (oauthData : value) (env2 : Env) (code2 : string) (now2 : Z) :
  JSON_parse stored = inr oauthData ->
  code2 <> "" ->
  let st1 := (completeAnthropicOAuth env authCode now st).2 in
  completeAnthropicOAuth env2 code2 now2 st1
  = (CompleteFailure
       "OAuth session not found. Please start the authentication process again.", st1).
Proof.
  intros Hparse Hcode2 st1.
  assert (keyValue st1 !! oauth_data_key = None /\ oauthConfig st1 = Some config)
    as [Hgone Hcached].
  { subst st1.
    set (I := fun st' : State =>
                keyValue st' = keyValue st /\ oauthConfig st' = Some config).
    assert (forall st', I st' ->
              keyValue (delete_keyValue oauth_data_key st') !! oauth_data_key = None
              /\ oauthConfig (delete_keyValue oauth_data_key st') = Some config) as Hcatch.
    { intros st' [Hkv Hc]. cbn. by rewrite lookup_delete_eq. }
    pattern (completeAnthropicOAuth env authCode now st).
    to_parse. rewrite Hparse.
    assert (I (set_oauthConfig (Some config) st)) as HI by done.
    generalize dependent (set_oauthConfig (Some config) st). intros st0 HI.
    wp_stage I; [exact (Hcatch _ ltac:(eassumption))|].
    destruct (number_gt _ _); [wp_run; exact (Hcatch _ ltac:(eassumption))|].
    do 3 (wp_stage I; [exact (Hcatch _ ltac:(eassumption))|]).
    destruct (negb _); [exact (Hcatch _ ltac:(eassumption))|].
    do 3 (wp_stage I; [exact (Hcatch _ ltac:(eassumption))|]).
    destruct (negb _); [exact (Hcatch _ ltac:(eassumption))|].
    do 6 (wp_stage I; [exact (Hcatch _ ltac:(eassumption))|]).
    wp_run. wp_run.
    exact (Hcatch _ ltac:(eassumption)). }
  rewrite (complete_no_session env2 code2 now2 st1 config); try done.
  - by rewrite set_oauthConfig_cached.
  - unfold resolved_config. by rewrite Hcached.
Qed.

End CompleteFailures.

(** ** Credentials written by the flow, and credentials without metadata *)

Section StoredCredentials.
Context `{Platform}.

(** X17. The row [completeAnthropicOAuth] writes is recognised
    afterwards, provided its metadata text reads back: the status names
    it as generated by the flow, with the key's name and hint, and logout
    clears it. *)
Theorem flow_credential_recognised (st : State)
    (raw_key key_id key_name created_at partial_key_hint : value) :
  let metadata := apiKey_metadata key_id key_name created_at partial_key_hint in
  connection st !! "Anthropic"
  = Some (flow_row raw_key key_id key_name created_at partial_key_hint) ->
  truthy raw_key = true ->
  JSON_stringify metadata <> "" ->
  JSON_parse (JSON_stringify metadata) = inr metadata ->
  checkAnthropicAuthStatus st = (Authenticated true key_name partial_key_hint, st)
  /\ (logoutAnthropicOAuth st).2 = upsert_connection cleared_row st
  /\ (checkAnthropicAuthStatus (logoutAnthropicOAuth st).2).1 = NotAuthenticated.
Proof.
  intros metadata Hrow Hkey Hne Hparse. subst metadata.
  set (metadata := apiKey_metadata key_id key_name created_at partial_key_hint) in *.
  assert (is_oauth_generated
            (flow_row raw_key key_id key_name created_at partial_key_hint) = true
          /\ parsed_metadata
               (flow_row raw_key key_id key_name created_at partial_key_hint) = metadata)
    as [Hgen Hmeta].
  { unfold is_oauth_generated, parsed_metadata, flow_row. cbn [google_Oauth ToString].
    fold metadata. rewrite (truthy_nonempty _ Hne). by rewrite Hparse. }
  rewrite !checkAnthropicAuthStatus_eq, logoutAnthropicOAuth_eq, Hrow, Hgen.
  cbn [fst snd]. split; [|split; [done|]].
  - unfold status_of. cbn [apikey flow_row]. by rewrite Hkey, Hgen, Hmeta.
  - cbn. by rewrite lookup_insert_eq.
Qed.

(** X18. A key whose metadata is empty or does not parse is reported as
    authenticated but not generated by the flow, without name or hint,
    and logout leaves it in place. *)
Theorem credential_without_metadata (st : State) (row : Connection) :
  connection st !! "Anthropic" = Some row ->
  truthy (apikey row) = true ->
  truthy (google_Oauth row) = false
  \/ (exists e, JSON_parse (ToString (google_Oauth row)) = inl e) ->
  checkAnthropicAuthStatus st = (Authenticated false VUndefined VUndefined, st)
  /\ logoutAnthropicOAuth st = (LogoutSuccess, st).
Proof.
  intros Hrow Hkey Hmeta.
  assert (parsed_metadata row = VNull) as Hnull.
  { unfold parsed_metadata. destruct Hmeta as [Hf|[e He]]; [by rewrite Hf|].
    rewrite He. by destruct (truthy (google_Oauth row)). }
  rewrite checkAnthropicAuthStatus_eq, logoutAnthropicOAuth_eq, Hrow.
  unfold status_of, is_oauth_generated. by rewrite Hkey, Hnull.
Qed.

End StoredCredentials.

(** ** The Gemini actions, on every path *)

(** X19. [checkGeminiAuthStatus] reports an authenticated user exactly
    when the service answered true; a throwing service is reported as
    not authenticated.  The only trace of the call is the call itself. *)
Theorem checkGeminiAuthStatus_exact (env : Env) (st : State) :
  ((Gemini.checkGeminiAuthStatus env st).1 = true <-> gemini_isAuthenticated env = inr true)
  /\ (Gemini.checkGeminiAuthStatus env st).2 = Gemini.called IsAuthenticated st.
Proof.
  unfold Gemini.checkGeminiAuthStatus, try_catch, bind, Gemini.isAuthenticated. cbn.
  destruct (gemini_isAuthenticated env) as [e|[|]]; cbn; split; try done; split; done.
Qed.

(** X20. A failed [startGeminiOAuthLogin] carries the message of the
    error thrown by [isAuthenticated], or by [authWithWeb] after a
    negative answer, and has registered neither a signal nor a timer. *)
Theorem gemini_login_failure (env : Env) (st : State) :
  let r := Gemini.startGeminiOAuthLogin env st in
  Gemini.success r.1 = false ->
  authPromises r.2 = authPromises st
  /\ timers r.2 = timers st
  /\ Gemini.authUrl r.1 = None
  /\ exists e,
       Gemini.error r.1 = Some (message e)
       /\ (gemini_isAuthenticated env = inl e
           \/ (gemini_isAuthenticated env = inr false /\ gemini_authWithWeb env = inl e)).
Proof.
  unfold Gemini.startGeminiOAuthLogin, try_catch, bind, Gemini.isAuthenticated,
    Gemini.authWithWeb. cbn.
  destruct (gemini_isAuthenticated env) as [e|[|]]; cbn; [|done|].
  - intros _. repeat split; try done. exists e. destruct e. eauto.
  - destruct (gemini_authWithWeb env) as [e|[url p]]; cbn; [|done].
    intros _. repeat split; try done. exists e. destruct e. eauto.
Qed.

(** X21. For a user who is not authenticated, [startGeminiOAuthLogin]
    returns the URL of the service and registers the completion signal
    under it, leaving the other signals alone, with one deletion of that
    URL queued after 300000 ms.  When the queued deletion runs, the
    signal is removed; if the URL was not registered before the login,
    the map of signals is again what it was. *)
Theorem gemini_login_cleanup (env : Env) (st : State) (url : string) (p : Promise) :
  gemini_isAuthenticated env = inr false ->
  gemini_authWithWeb env = inr (url, p) ->
  timers st = [] ->
  let r := Gemini.startGeminiOAuthLogin env st in
  Gemini.authUrl r.1 = Some url
  /\ Gemini.success r.1 = true
  /\ authPromises r.2 !! url = Some p
  /\ (forall other, other <> url -> authPromises r.2 !! other = authPromises st !! other)
  /\ timers r.2 = [(300000, url)]
  /\ authPromises (fire_timer r.2) = delete url (authPromises st)
  /\ timers (fire_timer r.2) = []
  /\ (authPromises st !! url = None -> authPromises (fire_timer r.2) = authPromises st).
Proof.
  intros Hauth Hweb Htimers r. subst r.
  unfold Gemini.startGeminiOAuthLogin, try_catch, bind, Gemini.isAuthenticated,
    Gemini.authWithWeb.
  rewrite Hauth. cbn. rewrite Hweb. cbn. unfold fire_timer. cbn. rewrite Htimers. cbn.
  rewrite delete_insert_eq.
  split; [done|]. split; [done|]. split; [apply lookup_insert_eq|].
  split; [intros other Hne; by apply lookup_insert_ne|].
  split; [done|]. split; [done|]. split; [done|].
  intros Hfresh. by apply delete_id.
Qed.

(** X22. Two logins that get the same URL share one entry: the deletion
    queued by the first removes the signal of the second, whose own
    timer is still pending. *)
Theorem gemini_login_same_url (env1 env2 : Env) (st : State) (url : string)
    (p1 p2 : Promise) :
  gemini_isAuthenticated env1 = inr false ->
  gemini_authWithWeb env1 = inr (url, p1) ->
  gemini_isAuthenticated env2 = inr false ->
  gemini_authWithWeb env2 = inr (url, p2) ->
  timers st = [] ->
  let st2 :=
    (Gemini.startGeminiOAuthLogin env2 (Gemini.startGeminiOAuthLogin env1 st).2).2 in
  authPromises st2 !! url = Some p2
  /\ authPromises (fire_timer st2) !! url = None
  /\ timers (fire_timer st2) = [(300000, url)].
Proof.
  intros Hauth1 Hweb1 Hauth2 Hweb2 Htimers st2. subst st2.
  unfold Gemini.startGeminiOAuthLogin, try_catch, bind, Gemini.isAuthenticated,
    Gemini.authWithWeb.
  rewrite Hauth1, Hauth2. cbn. rewrite Hweb1, Hweb2. cbn.
  unfold fire_timer. cbn. rewrite Htimers. cbn.
  split; [apply lookup_insert_eq|]. split; [apply lookup_delete_eq|done].
Qed.

(** X23. [clearGeminiOAuthCredentials] deletes the row of provider
    [Gemini CLI] and no other once the service has cleared its cache; if
    the service throws, the call fails with the error's message and the
    row is still there.  The Anthropic status is the same either way. *)
Theorem clearGeminiOAuthCredentials_effects `{Platform} (env : Env) (st : State) :
  let r := Gemini.clearGeminiOAuthCredentials env st in
  (gemini_clearCachedCredentials env = inr tt ->
   Gemini.clear_success r.1 = true
   /\ connection r.2 = delete "Gemini CLI" (connection st))
  /\ (forall e,
        gemini_clearCachedCredentials env = inl e ->
        Gemini.clear_success r.1 = false
        /\ Gemini.clear_error r.1 = Some (message e)
        /\ connection r.2 = connection st)
  /\ (checkAnthropicAuthStatus r.2).1 = (checkAnthropicAuthStatus st).1.
Proof.
  intros r. subst r.
  unfold Gemini.clearGeminiOAuthCredentials, try_catch, bind, Gemini.clearCachedCredentials.
  cbn. rewrite !checkAnthropicAuthStatus_eq.
  destruct (gemini_clearCachedCredentials env) as [e|[]]; cbn.
  - split; [done|]. split; [|done]. intros e' [= <-]. by destruct e.
  - split; [done|]. split; [done|]. by rewrite lookup_delete_ne.
Qed.

(** ** The failure cases, run *)

Section MoreExamples.
#[local] Existing Instance Node.platform.

Ltac run_case := first [ vm_compute; reflexivity | vm_compute; discriminate ].

(** A configuration loaded once outlives the loader. *)
Lemma ensureOAuthConfig_caches_example :
  oauthConfig Scenario.started = Some Scenario.config
  /\ ensureOAuthConfig Cases.offline Scenario.started
     = (inr Scenario.config, Scenario.started).
Proof.
  apply (ensureOAuthConfig_caches Scenario.env Cases.offline Scenario.started
           Scenario.started Scenario.config).
  run_case.
Defined.

(** A failed load, then a load that works. *)
Lemma ensureOAuthConfig_failure_example :
  Scenario.initial = Scenario.initial
  /\ getOAuthConfig Cases.offline = inl (Exn "config unavailable")
  /\ ensureOAuthConfig Scenario.env Scenario.initial
     = (inr Scenario.config, set_oauthConfig (Some Scenario.config) Scenario.initial).
Proof.
  apply (ensureOAuthConfig_failure_not_cached Cases.offline Scenario.env Scenario.initial
           Scenario.initial (Exn "config unavailable") {| anthropic := Scenario.config |});
    reflexivity.
Defined.

(** A start with an [authorizeUrl] that is no URL. *)
Lemma start_failure_example :
  (startAnthropicOAuth Cases.misconfigured 1000 Scenario.initial).1
  = StartFailure "Failed to start OAuth flow"
  /\ keyValue (startAnthropicOAuth Cases.misconfigured 1000 Scenario.initial).2
     = keyValue Scenario.initial.
Proof.
  split; [run_case|].
  apply (start_failure_frame Cases.misconfigured 1000 Scenario.initial
           (startAnthropicOAuth Cases.misconfigured 1000 Scenario.initial).2
           "Failed to start OAuth flow").
  run_case.
Defined.

(** The start of the scenario stores the attempt and nothing else. *)
Lemma start_success_example :
  keyValue Scenario.started
  = <[oauth_data_key := Scenario.stored_attempt]> (keyValue Scenario.initial)
  /\ drawn Scenario.started = 64%nat
  /\ connection Scenario.started = connection Scenario.initial
  /\ requests Scenario.started = [].
Proof.
  destruct (start_success_stores_attempt Scenario.env 1000 Scenario.initial Scenario.started
              Cases.started_url (next_verifier Scenario.env Scenario.initial)
              (next_state Scenario.env Scenario.initial))
    as (_ & _ & Hkv & Hdrawn & Hconn & Hreq & _); [run_case|].
  auto.
Defined.

(** A second start replaces the attempt of the first. *)
Lemma start_twice_example :
  let second := startAnthropicOAuth Scenario.env 5000 Scenario.started in
  keyValue second.2 !! oauth_data_key
  = Some (JSON_stringify
            (oauthData_object (next_verifier Scenario.env Scenario.started)
               (next_state Scenario.env Scenario.started) 5000))
  /\ next_verifier Scenario.env Scenario.started
     <> next_verifier Scenario.env Scenario.initial.
Proof.
  intros second. split; [|run_case].
  destruct (start_twice_last_wins Scenario.env Scenario.env 1000 5000 Scenario.initial
              Scenario.started second.2 Cases.started_url
              (next_verifier Scenario.env Scenario.initial)
              (next_state Scenario.env Scenario.initial)
              (match second.1 with StartSuccess a _ _ => a | StartFailure _ => "" end)
              (next_verifier Scenario.env Scenario.started)
              (next_state Scenario.env Scenario.started))
    as (_ & Hstored & _); [run_case..|].
  exact Hstored.
Defined.

(** The URL of the scenario carries its state and its challenge. *)
Lemma start_url_carries_state_example :
  contains Cases.started_url ("state=" +:+ next_state Scenario.env Scenario.initial)
  /\ contains Cases.started_url
       ("code_challenge=" +:+ challenge_of (next_verifier Scenario.env Scenario.initial)).
Proof.
  apply (start_url_carries_state Scenario.env 1000 Scenario.initial Scenario.started).
  run_case.
Defined.

(** The token endpoint refuses: nothing is stored. *)
Lemma complete_failure_example :
  connection (completeAnthropicOAuth Cases.token_rejected "code123" 2000 Scenario.started).2
  = connection Scenario.started.
Proof.
  destruct (complete_failure_keeps_credentials Cases.token_rejected "code123" 2000
              Scenario.started
              (completeAnthropicOAuth Cases.token_rejected "code123" 2000 Scenario.started).2
              "Token exchange failed: invalid_grant")
    as [Hconn _]; [run_case|].
  exact Hconn.
Defined.

(** The completion of the scenario deletes the attempt and sends two requests. *)
Lemma complete_success_example :
  keyValue Scenario.completed = delete oauth_data_key (keyValue Scenario.started)
  /\ exists req1 req2, requests Scenario.completed = requests Scenario.started ++ [req1; req2].
Proof.
  destruct (complete_success_effects Scenario.env "code123" 2000 Scenario.started
              Scenario.completed (VStr "sk-abc") (VStr "n"))
    as (_ & _ & Hkv & Hreq); [run_case|].
  auto.
Defined.

(** The token endpoint answers [invalid_grant]. *)
Lemma complete_token_exchange_failed_example :
  exists st',
    completeAnthropicOAuth Cases.token_rejected "code123" 2000 Scenario.started
    = (CompleteFailure "Token exchange failed: invalid_grant", st')
    /\ requests st'
       = requests Scenario.started
         ++ [first_request Scenario.config "code123" Scenario.attempt_props]
    /\ keyValue st' = delete oauth_data_key (keyValue Scenario.started)
    /\ connection st' = connection Scenario.started.
Proof.
  apply (complete_token_exchange_failed Cases.token_rejected "code123" 2000
           Scenario.started Scenario.config Scenario.stored_attempt);
    solve [run_case].
Defined.

(** The issuance endpoint answers [forbidden] after a good token exchange. *)
Lemma complete_issuance_failed_example :
  exists st' r1 r2,
    completeAnthropicOAuth Cases.issuance_rejected "code123" 2000 Scenario.started
    = (CompleteFailure "API key creation failed: forbidden", st')
    /\ requests st' = [r1; r2]
    /\ req_url r2 = "https://api.anthropic.com/api/oauth/claude_cli/create_api_key"
    /\ req_method r2 = "POST"
    /\ req_headers r2
       = [("Content-Type", "application/json"); ("Authorization", "Bearer tok")]
    /\ authorization r2 = Some "Bearer tok"
    /\ JSON_parse (req_body r2) = inr (VObj [])
    /\ keyValue st' = delete oauth_data_key (keyValue Scenario.started)
    /\ connection st' = connection Scenario.started.
Proof.
  destruct (complete_issuance_failed Cases.issuance_rejected "code123" 2000
              Scenario.started Scenario.config Scenario.stored_attempt)
    with (props := Scenario.attempt_props)
         (tokenBody := JSON_stringify Scenario.tokenData)
         (tokenProps := [("access_token", VStr "tok"); ("expires_in", VNum 3600)])
         (token := "tok") (answer := "forbidden")
    as (st' & r2 & Hresult & Hsent & Hurl & Hmethod & Hheaders & Hbearer & Hbody
        & Hkv & Hconn);
    [run_case..|].
  exists st', (first_request Scenario.config "code123" Scenario.attempt_props), r2.
  rewrite Hbody. repeat split; assumption || reflexivity.
Defined.

(** An error without a message is reported with the default text. *)
Lemma complete_network_error_example :
  exists st',
    completeAnthropicOAuth Cases.unreachable "code123" 2000 Scenario.started
    = (CompleteFailure "Failed to complete OAuth flow", st')
    /\ requests st'
       = requests Scenario.started
         ++ [first_request Scenario.config "code123" Scenario.attempt_props]
    /\ keyValue st' = delete oauth_data_key (keyValue Scenario.started)
    /\ connection st' = connection Scenario.started.
Proof.
  apply (complete_network_error Cases.unreachable "code123" 2000
           Scenario.started Scenario.config Scenario.stored_attempt)
    with (props := Scenario.attempt_props) (e := Exn "");
    solve [run_case].
Defined.

(** Exactly 600000 ms after the start the code is still exchanged. *)
Lemma complete_plain_code_example :
  exists r sent payload,
    requests (completeAnthropicOAuth Scenario.env "code123" 601000 Scenario.started).2
    = r :: sent
    /\ req_url r = "https://console.anthropic.com/v1/oauth/token"
    /\ JSON_parse (req_body r) = inr (VObj payload)
    /\ lookup_prop "code" payload = VStr "code123"
    /\ lookup_prop "code_verifier" payload
       = VStr (next_verifier Scenario.env Scenario.initial)
    /\ lookup_prop "state" payload = VStr (next_state Scenario.env Scenario.initial).
Proof.
  destruct (complete_plain_code Scenario.env "code123" 601000 Scenario.started
              Scenario.config Scenario.stored_attempt)
    with (props := Scenario.attempt_props) (createdAt := 1000)
    as (r & sent & Hsent & Hurl & _ & Hbody); [run_case..|].
  exists r, sent. eexists. split; [exact Hsent|]. split; [exact Hurl|].
  rewrite Hbody. split; [vm_compute; reflexivity|].
  repeat split; vm_compute; reflexivity.
Defined.

(** An attempt without a timestamp is accepted a year later. *)
Lemma complete_missing_timestamp_example :
  exists r sent,
    requests (completeAnthropicOAuth Scenario.env "code123" 31536000000
                Cases.undated_session).2
    = r :: sent
    /\ req_url r = "https://console.anthropic.com/v1/oauth/token"
    /\ req_method r = "POST".
Proof.
  destruct (complete_missing_timestamp Scenario.env "code123" 31536000000
              Cases.undated_session Scenario.config
              (JSON_stringify (VObj Cases.undated_props)))
    with (props := Cases.undated_props)
    as (sent & Hsent & Hurl & Hmethod); [run_case..|].
  exists (first_request Scenario.config "code123" Cases.undated_props), sent.
  split; [exact Hsent|]. split; [exact Hurl|exact Hmethod].
Defined.

(** The code of the completed scenario cannot be used again. *)
Lemma complete_single_use_example :
  completeAnthropicOAuth Scenario.env "code123" 3000 Scenario.completed
  = (CompleteFailure
       "OAuth session not found. Please start the authentication process again.",
     Scenario.completed).
Proof.
  apply (complete_single_use Scenario.env "code123" 2000 Scenario.started
           Scenario.config Scenario.stored_attempt)
    with (oauthData := VObj Scenario.attempt_props);
    solve [run_case].
Defined.

(** The stored session is the text [null]. *)
Lemma complete_null_session_example :
  exists st',
    completeAnthropicOAuth Scenario.env "code123" 2000 (Cases.with_session "null")
    = (CompleteFailure "Cannot read properties of null (reading 'timestamp')", st')
    /\ keyValue st' = delete oauth_data_key (keyValue (Cases.with_session "null"))
    /\ requests st' = requests (Cases.with_session "null")
    /\ connection st' = connection (Cases.with_session "null").
Proof.
  destruct (complete_null_session Scenario.env "code123" 2000 (Cases.with_session "null")
              Scenario.config "null") as (st' & Hresult & Hrest); [run_case..|].
  exists st'. split; [exact Hresult|exact Hrest].
Defined.

(** The credential of the completed scenario is recognised, then cleared. *)
Lemma flow_credential_recognised_example :
  checkAnthropicAuthStatus Scenario.completed
  = (Authenticated true (VStr "n") (VStr "sk-...c"), Scenario.completed)
  /\ (logoutAnthropicOAuth Scenario.completed).2
     = upsert_connection cleared_row Scenario.completed
  /\ (checkAnthropicAuthStatus (logoutAnthropicOAuth Scenario.completed).2).1
     = NotAuthenticated.
Proof.
  apply (flow_credential_recognised Scenario.completed (VStr "sk-abc") (VStr "1")
           (VStr "n") (VStr "2024-01-01") (VStr "sk-...c"));
    solve [run_case].
Defined.

(** A key entered by hand, with metadata that is no JSON, survives a logout. *)
Lemma credential_without_metadata_example :
  checkAnthropicAuthStatus Cases.two_rows
  = (Authenticated false VUndefined VUndefined, Cases.two_rows)
  /\ logoutAnthropicOAuth Cases.two_rows = (LogoutSuccess, Cases.two_rows).
Proof.
  apply (credential_without_metadata Cases.two_rows
           {| provider := "Anthropic"; apikey := VStr "sk-manual";
              google_Oauth := VStr "n/a" |});
    [run_case|run_case|].
  right. eexists. vm_compute. reflexivity.
Defined.

End MoreExamples.

(** A service that throws reports no authentication; the scenario reports one. *)
Lemma checkGeminiAuthStatus_example :
  (Gemini.checkGeminiAuthStatus Cases.gemini_down Scenario.initial).1 = false
  /\ (Gemini.checkGeminiAuthStatus Scenario.env Scenario.initial).1 = true.
Proof.
  destruct (checkGeminiAuthStatus_exact Cases.gemini_down Scenario.initial) as [Hdown _].
  destruct (checkGeminiAuthStatus_exact Scenario.env Scenario.initial) as [Hup _].
  split; [|by apply Hup].
  destruct (Gemini.checkGeminiAuthStatus Cases.gemini_down Scenario.initial).1; [|done].
  by destruct Hdown as [Hdown _]; specialize (Hdown eq_refl).
Defined.

(** A login against a service that throws registers nothing. *)
Lemma gemini_login_failure_example :
  let r := Gemini.startGeminiOAuthLogin Cases.gemini_down Scenario.initial in
  authPromises r.2 = ∅ /\ timers r.2 = []
  /\ Gemini.error r.1 = Some "gemini unavailable".
Proof.
  intros r.
  destruct (gemini_login_failure Cases.gemini_down Scenario.initial)
    as (Hmap & Htimers & _ & _); [reflexivity|].
  split; [exact Hmap|]. split; [exact Htimers|reflexivity].
Defined.

(** A login registers its signal; the timer removes it. *)
Lemma gemini_login_cleanup_example :
  let r := Gemini.startGeminiOAuthLogin (Cases.anonymous 7%nat) Scenario.initial in
  Gemini.authUrl r.1 = Some Cases.login_url
  /\ authPromises r.2 !! Cases.login_url = Some 7%nat
  /\ authPromises (fire_timer r.2) = authPromises Scenario.initial.
Proof.
  intros r.
  destruct (gemini_login_cleanup (Cases.anonymous 7%nat) Scenario.initial Cases.login_url
              7%nat)
    as (Hurl & _ & Hsignal & _ & _ & _ & _ & Hrestored); [reflexivity..|].
  split; [exact Hurl|]. split; [exact Hsignal|]. by apply Hrestored.
Defined.

(** Two logins with one URL: the first timer removes the signal of the second. *)
Lemma gemini_login_same_url_example :
  let st2 :=
    (Gemini.startGeminiOAuthLogin (Cases.anonymous 8%nat)
       (Gemini.startGeminiOAuthLogin (Cases.anonymous 7%nat) Scenario.initial).2).2 in
  authPromises st2 !! Cases.login_url = Some 8%nat
  /\ authPromises (fire_timer st2) !! Cases.login_url = None
  /\ timers (fire_timer st2) = [(300000, Cases.login_url)].
Proof.
  apply (gemini_login_same_url (Cases.anonymous 7%nat) (Cases.anonymous 8%nat)
           Scenario.initial Cases.login_url 7%nat 8%nat);
    reflexivity.
Defined.

(** Clearing deletes the Gemini row, unless the cache cannot be cleared. *)
Lemma clearGeminiOAuthCredentials_example :
  connection (Gemini.clearGeminiOAuthCredentials Scenario.env Cases.two_rows).2
  = delete "Gemini CLI" (connection Cases.two_rows)
  /\ connection (Gemini.clearGeminiOAuthCredentials Cases.gemini_down Cases.two_rows).2
     = connection Cases.two_rows
  /\ Gemini.clear_error (Gemini.clearGeminiOAuthCredentials Cases.gemini_down Cases.two_rows).1
     = Some "cache locked".
Proof.
  destruct (clearGeminiOAuthCredentials_effects (H := Node.platform) Scenario.env
              Cases.two_rows) as (Hok & _ & _).
  destruct (clearGeminiOAuthCredentials_effects (H := Node.platform) Cases.gemini_down
              Cases.two_rows) as (_ & Hfail & _).
  destruct (Hok eq_refl) as [_ Hdeleted].
  destruct (Hfail (Exn "cache locked") eq_refl) as (_ & Herror & Hkept).
  auto.
Defined.
